(** * Agent-permissions generator: rule engine, page extraction, policy model

    A shallow embedding of the robots-directive rule engine
    ([parseRobots], [isPathAllowed], [matchesRule]), of the truncation
    step of the page extractor ([truncate] and the flags [crawlSite]
    derives from it) and of the policy document builder and parser
    ([buildQuickPolicy], [parsePolicy]), followed by the properties
    established for them.

    ECMAScript strings are sequences of 16-bit code units, and the
    program only ever looks at code units ([length], [slice],
    [startsWith], [split], ...), so a string is a list of code units
    here. *)

From Stdlib Require Import List NArith ZArith Lia Bool String Ascii.
Import ListNotations.

Local Open Scope N_scope.

(* ================================================================== *)
(** * Part I: the embedding                                            *)
(* ================================================================== *)

(** ** Strings *)

Module JsString.

Abbreviation code_unit := N.
Abbreviation jsstring := (list code_unit).

(** A literal of the source, written as a Rocq string. *)
Definition js (s : string) : jsstring :=
  map N_of_ascii (list_ascii_of_string s).

(** The same, with every apostrophe standing for a double quote, to
    write JSON texts legibly. *)
Definition jsq (s : string) : jsstring :=
  map (fun c => if c =? 39 then 34 else c) (js s).

Fixpoint eqb (s t : jsstring) : bool :=
  match s, t with
  | [], [] => true
  | c :: s', d :: t' => (c =? d) && eqb s' t'
  | _, _ => false
  end.

(** [s.length], as the integer it is. *)
Definition len (s : jsstring) : Z := Z.of_nat (List.length s).

(** WhiteSpace and LineTerminator of ECMA-262: what [trim] strips and
    what the regular expression class [\s] matches. *)
Definition isWhiteSpace (c : code_unit) : bool :=
  ((9 <=? c) && (c <=? 13)) || (c =? 32) || (c =? 160) || (c =? 5760)
  || ((8192 <=? c) && (c <=? 8202)) || (c =? 8232) || (c =? 8233)
  || (c =? 8239) || (c =? 8287) || (c =? 12288) || (c =? 65279).

Fixpoint trimStart (s : jsstring) : jsstring :=
  match s with
  | [] => []
  | c :: s' => if isWhiteSpace c then trimStart s' else s
  end.

Definition trimEnd (s : jsstring) : jsstring := rev (trimStart (rev s)).

Definition trim (s : jsstring) : jsstring := trimEnd (trimStart s).

Fixpoint startsWith (s prefix : jsstring) {struct prefix} : bool :=
  match prefix, s with
  | [], _ => true
  | p :: prefix', c :: s' => (c =? p) && startsWith s' prefix'
  | _ :: _, [] => false
  end.

Definition endsWith (s suffix : jsstring) : bool :=
  startsWith (rev s) (rev suffix).

(** [s.includes(t)]. *)
Fixpoint includes (s t : jsstring) : bool :=
  startsWith s t ||
  match s with
  | [] => false
  | _ :: s' => includes s' t
  end.

(** [s.slice(0, stop)] for an integer [stop]: a negative [stop] counts
    from the end of the string. *)
Definition slice0 (s : jsstring) (stop : Z) : jsstring :=
  let n := if (stop <? 0)%Z then Z.max (len s + stop) 0 else stop in
  firstn (Z.to_nat n) s.

(** [s.split(sep)] for a one-unit separator: the segments between the
    occurrences of [sep], at least one. *)
Fixpoint split (sep : code_unit) (s : jsstring) : list jsstring :=
  match s with
  | [] => [[]]
  | c :: s' =>
      if c =? sep then [] :: split sep s'
      else match split sep s' with
           | seg :: segs => (c :: seg) :: segs
           | [] => [[c]]
           end
  end.

(** [segs.join(sep)]. *)
Fixpoint join (sep : jsstring) (segs : list jsstring) : jsstring :=
  match segs with
  | [] => []
  | [seg] => seg
  | seg :: segs' => seg ++ sep ++ join sep segs'
  end.

(** [s.split(/\r?\n/)]: a line ends at a line feed, together with the
    carriage return just before it when there is one. *)
Fixpoint splitLines (s : jsstring) : list jsstring :=
  match s with
  | [] => [[]]
  | c :: s' =>
      if c =? 10 then [] :: splitLines s'
      else
        let keep :=
          match splitLines s' with
          | l :: ls => (c :: l) :: ls
          | [] => [[c]]
          end in
        if c =? 13 then
          match s' with
          | d :: s'' => if d =? 10 then [] :: splitLines s'' else keep
          | [] => keep
          end
        else keep
  end.

(** Lowercasing restricted to Basic Latin and Latin-1, where it is a
    map on code units; used to run the parser on concrete texts. *)
Definition lowerLatin1 (s : jsstring) : jsstring :=
  map (fun c =>
         if ((65 <=? c) && (c <=? 90))
            || ((192 <=? c) && (c <=? 222) && negb (c =? 215))
         then c + 32 else c) s.

End JsString.

Import JsString.

(** ** Numbers *)

Module JsNumber.

(** A Number read from a decimal literal is the double nearest to the
    literal's value, [mant * 10 ^ exp10] with the sign [neg]. The
    embedding keeps the literal's value; what the program asks of a
    Number ([Number.isFinite]) and what the properties ask (its sign) are
    decided on it exactly as rounding to nearest decides them. *)
Record decimal : Type := mkDecimal {
  neg : bool;
  mant : N;
  exp10 : Z
}.

Inductive number : Type :=
| NaN
| Infinity (negative : bool)
| Dec (d : decimal).

(** The integer [n] as a Number. *)
Definition ofN (n : N) : number := Dec (mkDecimal false n 0).

(** Values of magnitude [2^1024 - 2^970] and above round to an
    infinity: that bound is half-way between the largest double and
    [2^1024], and the tie goes to the even significand, [2^1024]. *)
Definition overflowBound : Z := (2 ^ 1024 - 2 ^ 970)%Z.

(** Does [mant * 10 ^ exp10] stay below [bound]? *)
Definition magnitudeBelow (d : decimal) (bound : Z) : bool :=
  if (0 <=? exp10 d)%Z
  then (Z.of_N (mant d) * 10 ^ exp10 d <? bound)%Z
  else (Z.of_N (mant d) <? bound * 10 ^ (- exp10 d))%Z.

(** [Number.isFinite(x)]. *)
Definition isFinite (x : number) : bool :=
  match x with
  | NaN | Infinity _ => false
  | Dec d => magnitudeBelow d overflowBound
  end.

(** [x < 0]: a negative literal whose magnitude is above [2^-1075],
    half the smallest double, so that it does not round to [-0]. *)
Definition isNegative (x : number) : bool :=
  match x with
  | NaN => false
  | Infinity negative => negative
  | Dec d =>
      neg d &&
      (if (0 <=? exp10 d)%Z then 0 <? mant d
       else (10 ^ (- exp10 d) <? Z.of_N (mant d) * 2 ^ 1075)%Z)
  end.

Definition isDigit (c : code_unit) : bool := (48 <=? c) && (c <=? 57).

(** The longest run of decimal digits at the start of [s], and what
    follows it. *)
Fixpoint takeDigits (s : jsstring) : jsstring * jsstring :=
  match s with
  | [] => ([], [])
  | c :: s' =>
      if isDigit c
      then let (ds, rest) := takeDigits s' in (c :: ds, rest)
      else ([], s)
  end.

Definition digitsValue (ds : jsstring) : N :=
  fold_left (fun acc c => 10 * acc + (c - 48)) ds 0.

(** An optional sign: whether it is a minus, and what follows. *)
Definition takeSign (s : jsstring) : bool * jsstring :=
  match s with
  | c :: s' => if c =? 45 then (true, s')
               else if c =? 43 then (false, s') else (false, s)
  | [] => (false, s)
  end.

(** ExponentPart: [e] or [E], an optional sign, at least one digit. *)
Definition takeExponent (s : jsstring) : option (Z * jsstring) :=
  match s with
  | c :: s' =>
      if (c =? 101) || (c =? 69) then
        let (negative, s'') := takeSign s' in
        match takeDigits s'' with
        | ([], _) => None
        | (ds, rest) =>
            let e := Z.of_N (digitsValue ds) in
            Some (if negative then (- e)%Z else e, rest)
        end
      else None
  | [] => None
  end.

(** The exponent part at the start of [s] when there is one. *)
Definition exponentOf (s : jsstring) : Z :=
  match takeExponent s with
  | Some (e, _) => e
  | None => 0%Z
  end.

(** [Number.parseFloat(s)]: leading white space is skipped, then the
    longest prefix that is a StrDecimalLiteral is read; no such prefix
    gives [NaN]. *)
Definition parseFloat (s : jsstring) : number :=
  let (negative, body) := takeSign (trimStart s) in
  if startsWith body (js "Infinity") then Infinity negative
  else
    let (ints, afterInts) := takeDigits body in
    match afterInts with
    | c :: afterDot =>
        if c =? 46 then
          let (fracs, afterFracs) := takeDigits afterDot in
          match ints, fracs with
          | [], [] => NaN
          | _, _ =>
              Dec (mkDecimal negative (digitsValue (ints ++ fracs))
                     (exponentOf afterFracs - Z.of_nat (List.length fracs)))
          end
        else
          match ints with
          | [] => NaN
          | _ => Dec (mkDecimal negative (digitsValue ints)
                        (exponentOf afterInts))
          end
    | [] =>
        match ints with
        | [] => NaN
        | _ => Dec (mkDecimal negative (digitsValue ints) 0)
        end
    end.

End JsNumber.

Import JsNumber.

(** ** RuleStore and PathMatcher (robots directives) *)

Record RobotsRules : Type := mkRobotsRules {
  disallow : list jsstring;
  allow : list jsstring;
  crawlDelay : option number
}.

Definition emptyRules : RobotsRules := mkRobotsRules [] [] None.

Section RuleStore.

(** [String.prototype.toLowerCase]: the platform's Unicode case mapping.
    Nothing below depends on its table. *)
Variable toLowerCase : jsstring -> jsstring.

(** The key and the value of a directive line, for the lines the loop of
    [parseRobots] does not skip: [cleaned.split(":")] has a non-empty
    first segment and at least one more. *)
Definition readDirective (line : jsstring) : option (jsstring * jsstring) :=
  let cleaned := trim line in
  match cleaned with
  | [] => None
  | _ =>
      if startsWith cleaned (js "#") then None
      else
        match split 58 cleaned with
        | rawKey :: rest =>
            match rawKey, rest with
            | [], _ => None
            | _, [] => None
            | _, _ =>
                Some (toLowerCase (trim rawKey), trim (join (js ":") rest))
            end
        | [] => None
        end
  end.

(** The test of a [user-agent] value. *)
Definition agentApplies (value : jsstring) : bool :=
  let ua := toLowerCase value in
  eqb ua (js "*") || includes ua (js "agent-permissions").

(** One turn of the loop of [parseRobots] on the flag [applies] and the
    rules collected so far. *)
Definition parseLine (st : bool * RobotsRules) (line : jsstring)
  : bool * RobotsRules :=
  let (applies, rules) := st in
  match readDirective line with
  | None => st
  | Some (key, value) =>
      if eqb key (js "user-agent") then (agentApplies value, rules)
      else if negb applies then st
      else if eqb key (js "disallow") then
        match value with
        | [] => st
        | _ => (applies, mkRobotsRules (disallow rules ++ [value])
                           (allow rules) (crawlDelay rules))
        end
      else if eqb key (js "allow") then
        match value with
        | [] => st
        | _ => (applies, mkRobotsRules (disallow rules)
                           (allow rules ++ [value]) (crawlDelay rules))
        end
      else if eqb key (js "crawl-delay") then
        let delay := parseFloat value in
        if isFinite delay
        then (applies, mkRobotsRules (disallow rules) (allow rules)
                         (Some delay))
        else st
      else st
  end.

Definition parseLines (lines : list jsstring) : RobotsRules :=
  snd (fold_left parseLine lines (false, emptyRules)).

Definition parseRobots (content : jsstring) : RobotsRules :=
  parseLines (splitLines content).

End RuleStore.

Definition matchesRule (targetPath rulePath : jsstring) : bool :=
  match rulePath with
  | [] => true
  | _ =>
      if eqb rulePath (js "/") then true
      else if endsWith rulePath (js "$")
      then eqb targetPath (slice0 rulePath (-1))
      else startsWith targetPath rulePath
  end.

(** One of the two loops of [isPathAllowed]: is there a rule in [rules]
    that matches, looking at them in order? *)
Fixpoint firstMatch (path : jsstring) (rules : list jsstring) : bool :=
  match rules with
  | [] => false
  | rule :: rules' =>
      if matchesRule path rule then true else firstMatch path rules'
  end.

(** [path || "/"]. *)
Definition normalizedPath (path : jsstring) : jsstring :=
  match path with
  | [] => js "/"
  | _ => path
  end.

Definition isPathAllowed (path : jsstring) (rules : option RobotsRules)
  : bool :=
  match rules with
  | None => true
  | Some r =>
      if firstMatch (normalizedPath path) (allow r) then true
      else if firstMatch (normalizedPath path) (disallow r) then false
      else true
  end.

(** ** PageExtractor: truncation *)

Definition truncate (text : jsstring) (maxLength : Z) : jsstring :=
  if (len text <=? maxLength)%Z then text
  else slice0 text maxLength ++ js "...".

(** [s.replace(/\s+/g, " ")]: every run of white space becomes one
    space. *)
Fixpoint collapseWhiteSpace (s : jsstring) : jsstring :=
  match s with
  | [] => []
  | c :: s' =>
      if isWhiteSpace c then
        match s' with
        | d :: _ => if isWhiteSpace d then collapseWhiteSpace s'
                    else 32 :: collapseWhiteSpace s'
        | [] => [32]
        end
      else c :: collapseWhiteSpace s'
  end.

(** [s.split(/\s+/).length]: one more than the runs of white space. *)
Fixpoint whiteSpaceRuns (s : jsstring) : nat :=
  match s with
  | [] => 0
  | c :: s' =>
      if isWhiteSpace c then
        match s' with
        | d :: _ => if isWhiteSpace d then whiteSpaceRuns s'
                    else S (whiteSpaceRuns s')
        | [] => 1
        end
      else whiteSpaceRuns s'
  end.

(** The part of a [PageSummary] that [crawlSite] derives from the
    body's markup and text. *)
Record ContentSummary : Type := mkContentSummary {
  textContent : jsstring;
  htmlContent : jsstring;
  isTextTruncated : bool;
  isHtmlTruncated : bool;
  wordCount : nat
}.

(** The extraction step of [crawlSite], from the two things the HTML
    library hands over: [body.html()], which may be [null], and
    [body.text()]. *)
Definition summarizeBody (html : option jsstring) (text : jsstring)
    (maxHtmlChars maxTextChars : Z) : ContentSummary :=
  let bodyHtml := match html with Some h => trim h | None => [] end in
  let htmlContent := truncate bodyHtml maxHtmlChars in
  let isHtmlTruncated := (len htmlContent <? len bodyHtml)%Z in
  let rawText := trim (collapseWhiteSpace text) in
  let textContent := truncate rawText maxTextChars in
  let isTextTruncated := (len textContent <? len rawText)%Z in
  let wordCount :=
    match rawText with
    | [] => 0%nat
    | _ => S (whiteSpaceRuns rawText)
    end in
  mkContentSummary textContent htmlContent isTextTruncated isHtmlTruncated
    wordCount.

(** The ceilings [crawlSite] uses when its caller gives none. *)
Definition DEFAULT_maxHtmlChars : Z := 20000.
Definition DEFAULT_maxTextChars : Z := 12000.

(** ** JSON values, [JSON.stringify] and [JSON.parse] *)

Module Json.

(** The values [JSON.parse] produces and [JSON.stringify] consumes. An
    object is the list of its properties in the order of the text. *)
Unset Elimination Schemes.

Inductive value : Type :=
| JNull
| JBool (b : bool)
| JNum (x : number)
| JStr (s : jsstring)
| JArr (items : list value)
| JObj (props : list (jsstring * value)).

Set Elimination Schemes.

(** [typeof], on a value that may be [undefined] ([None]). *)
Inductive typeTag : Type :=
| TUndefined | TObject | TBoolean | TNumber | TString.

Definition typeOf (v : option value) : typeTag :=
  match v with
  | None => TUndefined
  | Some JNull => TObject
  | Some (JBool _) => TBoolean
  | Some (JNum _) => TNumber
  | Some (JStr _) => TString
  | Some (JArr _) => TObject
  | Some (JObj _) => TObject
  end.

Definition isTag (t u : typeTag) : bool :=
  match t, u with
  | TUndefined, TUndefined | TObject, TObject | TBoolean, TBoolean
  | TNumber, TNumber | TString, TString => true
  | _, _ => false
  end.

(** A magnitude of at most [2^-1075] rounds to zero. *)
Definition roundsToZero (d : decimal) : bool :=
  if (0 <=? exp10 d)%Z then mant d =? 0
  else (Z.of_N (mant d) * 2 ^ 1075 <=? 10 ^ (- exp10 d))%Z.

(** ToBoolean. *)
Definition truthy (v : option value) : bool :=
  match v with
  | None => false
  | Some JNull => false
  | Some (JBool b) => b
  | Some (JNum NaN) => false
  | Some (JNum (Infinity _)) => true
  | Some (JNum (Dec d)) => negb (roundsToZero d)
  | Some (JStr s) => match s with [] => false | _ => true end
  | Some (JArr _) => true
  | Some (JObj _) => true
  end.

(** The property [key] of an object of the text: the last one of that
    name, as [JSON.parse] keeps it. *)
Fixpoint lookup (key : jsstring) (props : list (jsstring * value))
  : option value :=
  match props with
  | [] => None
  | (k, v) :: props' =>
      match lookup key props' with
      | Some v' => Some v'
      | None => if eqb k key then Some v else None
      end
  end.

(** [v.key] for a value other than [null] and a [key] that is neither
    an index nor the name of a built-in property: arrays and primitive
    values have no such property. *)
Definition getProp (v : value) (key : jsstring) : option value :=
  match v with
  | JObj props => lookup key props
  | _ => None
  end.

(** *** Serialization *)

Definition hexDigit (n : N) : code_unit :=
  if n <? 10 then 48 + n else 87 + n.

(** [\uXXXX], in lowercase hexadecimal. *)
Definition unicodeEscape (c : code_unit) : jsstring :=
  [92; 117; hexDigit (c / 4096 mod 16); hexDigit (c / 256 mod 16);
   hexDigit (c / 16 mod 16); hexDigit (c mod 16)].

Definition isHighSurrogate (c : code_unit) : bool :=
  (55296 <=? c) && (c <=? 56319).

Definition isLowSurrogate (c : code_unit) : bool :=
  (56320 <=? c) && (c <=? 57343).

(** One code unit that is not the first half of a surrogate pair, as
    QuoteJSONString writes it. *)
Definition quoteUnit (c : code_unit) : jsstring :=
  if c =? 8 then [92; 98]
  else if c =? 9 then [92; 116]
  else if c =? 10 then [92; 110]
  else if c =? 12 then [92; 102]
  else if c =? 13 then [92; 114]
  else if c =? 34 then [92; 34]
  else if c =? 92 then [92; 92]
  else if (c <? 32) || isHighSurrogate c || isLowSurrogate c
  then unicodeEscape c
  else [c].

(** The body of a quoted string: a surrogate pair is written as it is,
    a surrogate on its own is escaped. *)
Fixpoint quoteUnits (s : jsstring) : jsstring :=
  match s with
  | [] => []
  | c :: s' =>
      if isHighSurrogate c then
        match s' with
        | d :: s'' =>
            if isLowSurrogate d then c :: d :: quoteUnits s''
            else quoteUnit c ++ quoteUnits s'
        | [] => quoteUnit c
        end
      else quoteUnit c ++ quoteUnits s'
  end.

(** QuoteJSONString. *)
Definition quote (s : jsstring) : jsstring := 34 :: quoteUnits s ++ [34].

(** The decimal digits of [n], most significant first, in front of
    [acc]. [fuel] bounds the number of digits. *)
Fixpoint digitsAcc (fuel : nat) (n : N) (acc : jsstring) : jsstring :=
  match fuel with
  | O => acc
  | S fuel' =>
      let acc' := (48 + n mod 10) :: acc in
      if n / 10 =? 0 then acc' else digitsAcc fuel' (n / 10) acc'
  end.

Definition digitsOf (n : N) : jsstring :=
  digitsAcc (S (N.to_nat (N.size n))) n [].

(** Number::toString inside [JSON.stringify]. It is exact for the
    integers up to [2^53], which a double holds and prints digit by
    digit; any other finite number is written as its mantissa and its
    power of ten, which denotes the same value where the platform would
    pick the shortest digits of the double. A Number that is not finite
    becomes [null]. *)
Definition serNumber (x : number) : jsstring :=
  match x with
  | Dec d =>
      if isFinite x then
        (if neg d && negb (roundsToZero d) then js "-" else [])
        ++ digitsOf (mant d)
        ++ (if (exp10 d =? 0)%Z then []
            else js "e" ++ (if (exp10 d <? 0)%Z then js "-" else [])
                 ++ digitsOf (Z.abs_N (exp10 d)))
      else js "null"
  | _ => js "null"
  end.

(** The gap of [JSON.stringify(v, null, 2)]. *)
Definition gap : jsstring := js "  ".

(** SerializeJSONProperty with the gap [gap] at the indentation
    [indent]. *)
Fixpoint ser (indent : jsstring) (v : value) : jsstring :=
  match v with
  | JNull => js "null"
  | JBool true => js "true"
  | JBool false => js "false"
  | JNum x => serNumber x
  | JStr s => quote s
  | JArr items =>
      match items with
      | [] => js "[]"
      | _ =>
          let inner := indent ++ gap in
          js "[" ++ [10] ++ inner
          ++ join (js "," ++ [10] ++ inner) (map (ser inner) items)
          ++ [10] ++ indent ++ js "]"
      end
  | JObj props =>
      match props with
      | [] => js "{}"
      | _ =>
          let inner := indent ++ gap in
          js "{" ++ [10] ++ inner
          ++ join (js "," ++ [10] ++ inner)
               (map (fun '(k, x) => quote k ++ js ": " ++ ser inner x) props)
          ++ [10] ++ indent ++ js "}"
      end
  end.

Definition JSON_stringify (v : value) : jsstring := ser [] v.

(** *** Parsing *)

(** What a parser of the text returns: a result and the rest of the
    text, a syntax error, or the end of its fuel. *)
Inductive parsed (A : Type) : Type :=
| Got (a : A) (rest : jsstring)
| Malformed
| Exhausted.

Arguments Got {A} a rest.
Arguments Malformed {A}.
Arguments Exhausted {A}.

(** JSON white space: tab, line feed, carriage return, space. *)
Definition isJsonSpace (c : code_unit) : bool :=
  (c =? 9) || (c =? 10) || (c =? 13) || (c =? 32).

Fixpoint skipSpace (s : jsstring) : jsstring :=
  match s with
  | [] => []
  | c :: s' => if isJsonSpace c then skipSpace s' else s
  end.

Definition hexValue (c : code_unit) : option N :=
  if (48 <=? c) && (c <=? 57) then Some (c - 48)
  else if (97 <=? c) && (c <=? 102) then Some (c - 87)
  else if (65 <=? c) && (c <=? 70) then Some (c - 55)
  else None.

(** The code unit of four hexadecimal digits. *)
Definition hex4 (a b c d : code_unit) : option code_unit :=
  match hexValue a, hexValue b, hexValue c, hexValue d with
  | Some x, Some y, Some z, Some w => Some (((x * 16 + y) * 16 + z) * 16 + w)
  | _, _, _, _ => None
  end.

(** The code unit of a one-letter escape. *)
Definition escapeOf (c : code_unit) : option code_unit :=
  if c =? 34 then Some 34
  else if c =? 92 then Some 92
  else if c =? 47 then Some 47
  else if c =? 98 then Some 8
  else if c =? 102 then Some 12
  else if c =? 110 then Some 10
  else if c =? 114 then Some 13
  else if c =? 116 then Some 9
  else None.

(** A JSONString after its opening quote: the string, and the text
    after the closing quote. *)
Fixpoint parseString (s : jsstring) : option (jsstring * jsstring) :=
  match s with
  | [] => None
  | c :: s' =>
      if c =? 34 then Some ([], s')
      else if c =? 92 then
        match s' with
        | e :: s'' =>
            if e =? 117 then
              match s'' with
              | h1 :: h2 :: h3 :: h4 :: s4 =>
                  match hex4 h1 h2 h3 h4, parseString s4 with
                  | Some u, Some (str, rest) => Some (u :: str, rest)
                  | _, _ => None
                  end
              | _ => None
              end
            else
              match escapeOf e, parseString s'' with
              | Some u, Some (str, rest) => Some (u :: str, rest)
              | _, _ => None
              end
        | [] => None
        end
      else if c <? 32 then None
      else
        match parseString s' with
        | Some (str, rest) => Some (c :: str, rest)
        | None => None
        end
  end.

(** A JSONNumber: an optional minus, an integer part without a leading
    zero, an optional fraction, an optional exponent. *)
Definition parseNumber (s : jsstring) : parsed value :=
  let (negative, s1) :=
    match s with
    | c :: s' => if c =? 45 then (true, s') else (false, s)
    | [] => (false, s)
    end in
  let (ints, s2) := takeDigits s1 in
  match ints with
  | [] => Malformed
  | i :: ints' =>
      if (i =? 48) && negb (match ints' with [] => true | _ => false end)
      then Malformed
      else
        let fraction :=
          match s2 with
          | c :: s' =>
              if c =? 46 then
                match takeDigits s' with
                | ([], _) => None
                | (fracs, s3) => Some (fracs, s3)
                end
              else Some ([], s2)
          | [] => Some ([], s2)
          end in
        match fraction with
        | None => Malformed
        | Some (fracs, s3) =>
            let mantissa := digitsValue (ints ++ fracs) in
            let shift := Z.of_nat (List.length fracs) in
            match s3 with
            | c :: _ =>
                if (c =? 101) || (c =? 69) then
                  match takeExponent s3 with
                  | Some (e, s4) =>
                      Got (JNum (Dec (mkDecimal negative mantissa
                                        (e - shift)))) s4
                  | None => Malformed
                  end
                else Got (JNum (Dec (mkDecimal negative mantissa
                                       (- shift)))) s3
            | [] => Got (JNum (Dec (mkDecimal negative mantissa
                                      (- shift)))) s3
            end
        end
  end.

(** A JSONValue, given the parsers of the members of an object and of
    the elements of an array. *)
Definition valueStep
    (members : jsstring -> parsed (list (jsstring * value)))
    (elements : jsstring -> parsed (list value))
    (s : jsstring) : parsed value :=
  match skipSpace s with
  | [] => Malformed
  | c :: r =>
      if c =? 123 then
        match skipSpace r with
        | d :: r' =>
            if d =? 125 then Got (JObj []) r'
            else
              match members r with
              | Got props rest => Got (JObj props) rest
              | Malformed => Malformed
              | Exhausted => Exhausted
              end
        | [] => Malformed
        end
      else if c =? 91 then
        match skipSpace r with
        | d :: r' =>
            if d =? 93 then Got (JArr []) r'
            else
              match elements r with
              | Got items rest => Got (JArr items) rest
              | Malformed => Malformed
              | Exhausted => Exhausted
              end
        | [] => Malformed
        end
      else if c =? 34 then
        match parseString r with
        | Some (str, rest) => Got (JStr str) rest
        | None => Malformed
        end
      else if startsWith (c :: r) (js "true")
      then Got (JBool true) (skipn 4 (c :: r))
      else if startsWith (c :: r) (js "false")
      then Got (JBool false) (skipn 5 (c :: r))
      else if startsWith (c :: r) (js "null")
      then Got JNull (skipn 4 (c :: r))
      else parseNumber (c :: r)
  end.

(** The elements of an array after its bracket, up to the closing
    bracket: a value, then a comma and more elements, or the end. *)
Definition elementsStep
    (one : jsstring -> parsed value)
    (elements : jsstring -> parsed (list value))
    (s : jsstring) : parsed (list value) :=
  match one s with
  | Got v r =>
      match skipSpace r with
      | d :: r' =>
          if d =? 44 then
            match elements r' with
            | Got items rest => Got (v :: items) rest
            | Malformed => Malformed
            | Exhausted => Exhausted
            end
          else if d =? 93 then Got [v] r'
          else Malformed
      | [] => Malformed
      end
  | Malformed => Malformed
  | Exhausted => Exhausted
  end.

(** The members of an object after its brace, up to the closing brace:
    a quoted name, a colon, a value, then a comma and more members, or
    the end. *)
Definition membersStep
    (one : jsstring -> parsed value)
    (members : jsstring -> parsed (list (jsstring * value)))
    (s : jsstring) : parsed (list (jsstring * value)) :=
  match skipSpace s with
  | q :: r =>
      if q =? 34 then
        match parseString r with
        | Some (key, r1) =>
            match skipSpace r1 with
            | colon :: r2 =>
                if colon =? 58 then
                  match one r2 with
                  | Got v r3 =>
                      match skipSpace r3 with
                      | d :: r4 =>
                          if d =? 44 then
                            match members r4 with
                            | Got props rest => Got ((key, v) :: props) rest
                            | Malformed => Malformed
                            | Exhausted => Exhausted
                            end
                          else if d =? 125 then Got [(key, v)] r4
                          else Malformed
                      | [] => Malformed
                      end
                  | Malformed => Malformed
                  | Exhausted => Exhausted
                  end
                else Malformed
            | [] => Malformed
            end
        | None => Malformed
        end
      else Malformed
  | [] => Malformed
  end.

(** The recursive descent. Every call spends one unit of [fuel]. *)
Fixpoint parseValue (fuel : nat) (s : jsstring) : parsed value :=
  match fuel with
  | O => Exhausted
  | S fuel' => valueStep (parseMembers fuel') (parseElements fuel') s
  end

with parseElements (fuel : nat) (s : jsstring) : parsed (list value) :=
  match fuel with
  | O => Exhausted
  | S fuel' => elementsStep (parseValue fuel') (parseElements fuel') s
  end

with parseMembers (fuel : nat) (s : jsstring)
  : parsed (list (jsstring * value)) :=
  match fuel with
  | O => Exhausted
  | S fuel' => membersStep (parseValue fuel') (parseMembers fuel') s
  end.

(** The message of the SyntaxError that [JSON.parse] throws. Its
    wording is the engine's; the program only passes it on. *)
Definition syntaxErrorMessage : jsstring :=
  js "Unexpected token in JSON".

(** [JSON.parse(text)]: the value, or the message of the error thrown.
    The fuel given is never used up ([JSON_parse_fuel] below), so that
    an error is a syntax error. *)
Definition JSON_parse (text : jsstring) : value + jsstring :=
  match parseValue (2 * List.length text + 2) text with
  | Got v rest =>
      match skipSpace rest with
      | [] => inl v
      | _ => inr syntaxErrorMessage
      end
  | _ => inr syntaxErrorMessage
  end.

End Json.

Import Json.

(** ** PolicyModel: the builder and the tolerant parser *)

Inductive RateLimit : Type := gentle | standard | open.

Record QuickBuilderState : Type := mkQuickBuilderState {
  siteName : jsstring;
  allowReadContent : bool;
  allowReadMetadata : bool;
  allowNavigation : bool;
  allowForms : bool;
  requireHumanForForms : bool;
  blockLogin : bool;
  rateLimit : RateLimit;
  allowDownloads : bool
}.

(** An entry of [resource_rules]. [modifiers] is whatever value the
    document carries there, [None] for [undefined]. *)
Record ResourceRule : Type := mkResourceRule {
  verb : jsstring;
  selector : jsstring;
  allowed : bool;
  modifiers : option value
}.

(** An entry of [action_guidelines]. *)
Record ActionGuideline : Type := mkActionGuideline {
  directive : jsstring;
  description : jsstring;
  exceptions : option value
}.

Record ParsedPolicy : Type := mkParsedPolicy {
  error : option jsstring;
  metadata : option value;
  resourceRules : list ResourceRule;
  actionGuidelines : list ActionGuideline
}.

Definition rateLimitValue (maxRequests windowSeconds : N) : value :=
  JObj [(js "rate_limit",
         JObj [(js "max_requests", JNum (ofN maxRequests));
               (js "window_seconds", JNum (ofN windowSeconds))])].

Definition buildRateLimit (r : RateLimit) : option value :=
  match r with
  | open => None
  | standard => Some (rateLimitValue 5 10)
  | gentle => Some (rateLimitValue 1 1)
  end.

Definition humanInTheLoop : value :=
  JObj [(js "human_in_the_loop", JBool true)].

(** The array [rules] of [buildQuickPolicy]. *)
Definition quickRules (state : QuickBuilderState) : list ResourceRule :=
  let formModifiers :=
    if allowForms state && requireHumanForForms state
    then Some humanInTheLoop else None in
  [ mkResourceRule (js "read_content") (js "*") (allowReadContent state) None;
    mkResourceRule (js "read_metadata") (js "*") (allowReadMetadata state)
      None;
    mkResourceRule (js "follow_link") (js "*") (allowNavigation state)
      (if allowNavigation state then buildRateLimit (rateLimit state)
       else None);
    mkResourceRule (js "set_input_value")
      (js "form input, form textarea, form select, form option, form button")
      (allowForms state) formModifiers;
    mkResourceRule (js "submit_form") (js "form") (allowForms state)
      formModifiers;
    mkResourceRule (js "execute_script") (js "*") false None;
    mkResourceRule (js "upload_file") (js "input[type='file']") false None;
    mkResourceRule (js "download_file")
      (if allowDownloads state then js "*"
       else js "a[download], [role='button']")
      (allowDownloads state) None ].

(** The array literal of [guidelines], before [filter(Boolean)]:
    [None] is [null]. *)
Definition guidelineSlots (state : QuickBuilderState)
  : list (option ActionGuideline) :=
  [ if blockLogin state
    then Some (mkActionGuideline (js "MUST NOT")
                 (js "Attempt to log in or submit credentials, MFA codes, or session tokens.")
                 None)
    else None;
    if allowForms state
    then Some (mkActionGuideline
                 (if requireHumanForForms state then js "SHOULD"
                  else js "SHOULD")
                 (if requireHumanForForms state
                  then js "Confirm with a human before submitting forms or irreversible actions."
                  else js "Keep form submissions minimal and avoid sensitive personal data.")
                 None)
    else None;
    match rateLimit state with
    | gentle =>
        Some (mkActionGuideline (js "SHOULD")
                (js "Throttle navigation to roughly one request per second.")
                None)
    | _ => None
    end;
    match rateLimit state with
    | standard =>
        Some (mkActionGuideline (js "SHOULD")
                (js "Stay within ~5 requests every 10 seconds to reduce load.")
                None)
    | _ => None
    end ].

(** [guidelines], after [filter(Boolean)]. *)
Fixpoint dropNulls {A : Type} (slots : list (option A)) : list A :=
  match slots with
  | [] => []
  | Some a :: slots' => a :: dropNulls slots'
  | None :: slots' => dropNulls slots'
  end.

Definition quickGuidelines (state : QuickBuilderState)
  : list ActionGuideline :=
  dropNulls (guidelineSlots state).

(** A property that is left out when its value is [undefined]. *)
Definition optionalProp (key : jsstring) (v : option value)
  : list (jsstring * value) :=
  match v with
  | Some x => [(key, x)]
  | None => []
  end.

(** A rule as [resource_rules] holds it: the copy [cleaned], whose
    [modifiers] is deleted when it is not truthy. *)
Definition ruleValue (r : ResourceRule) : value :=
  JObj ([(js "verb", JStr (verb r)); (js "selector", JStr (selector r));
         (js "allowed", JBool (allowed r))]
        ++ (if truthy (modifiers r)
            then optionalProp (js "modifiers") (modifiers r) else [])).

Definition guidelineValue (g : ActionGuideline) : value :=
  JObj ([(js "directive", JStr (directive g));
         (js "description", JStr (description g))]
        ++ optionalProp (js "exceptions") (exceptions g)).

(** The [metadata] of [policy]; [now] is what
    [new Date().toISOString()] returned, and [author] is there when the
    trimmed site name is not empty. *)
Definition quickMetadata (now : jsstring) (state : QuickBuilderState) : value :=
  JObj ([(js "schema_version", JStr (js "1.0.0"));
         (js "last_updated", JStr now)]
        ++ match trim (siteName state) with
           | [] => []
           | author => [(js "author", JStr author)]
           end).

(** The object [policy] of [buildQuickPolicy]. *)
Definition policyValue (now : jsstring) (state : QuickBuilderState) : value :=
  JObj [(js "metadata", quickMetadata now state);
        (js "resource_rules", JArr (map ruleValue (quickRules state)));
        (js "action_guidelines",
         JArr (map guidelineValue (quickGuidelines state)))].

Definition buildQuickPolicy (now : jsstring) (state : QuickBuilderState)
  : jsstring :=
  JSON_stringify (policyValue now state).

(** The message of the TypeError thrown by [data.metadata] when [data]
    is [null]; its wording is the engine's. *)
Definition nullAccessMessage : jsstring :=
  js "Cannot read properties of null (reading 'metadata')".

Definition stringOf (v : option value) : jsstring :=
  match v with
  | Some (JStr s) => s
  | _ => []
  end.

Definition boolOf (v : option value) : bool :=
  match v with
  | Some (JBool b) => b
  | _ => false
  end.

(** The type guard of the [filter] over [resource_rules]. *)
Definition isResourceRule (rule : value) : bool :=
  truthy (Some rule)
  && isTag (typeOf (getProp rule (js "verb"))) TString
  && isTag (typeOf (getProp rule (js "selector"))) TString
  && isTag (typeOf (getProp rule (js "allowed"))) TBoolean.

(** The [map] that follows it, on an entry the guard let through. *)
Definition toResourceRule (rule : value) : ResourceRule :=
  mkResourceRule (stringOf (getProp rule (js "verb")))
    (stringOf (getProp rule (js "selector")))
    (boolOf (getProp rule (js "allowed")))
    (getProp rule (js "modifiers")).

Definition isActionGuideline (item : value) : bool :=
  truthy (Some item)
  && isTag (typeOf (getProp item (js "directive"))) TString
  && isTag (typeOf (getProp item (js "description"))) TString.

Definition toActionGuideline (item : value) : ActionGuideline :=
  mkActionGuideline (stringOf (getProp item (js "directive")))
    (stringOf (getProp item (js "description")))
    (getProp item (js "exceptions")).

(** [Array.isArray(v) ? v : []]. *)
Definition arrayOrEmpty (v : option value) : list value :=
  match v with
  | Some (JArr items) => items
  | _ => []
  end.

Definition parsePolicy (raw : jsstring) : ParsedPolicy :=
  match trim raw with
  | [] => mkParsedPolicy None None [] []
  | _ =>
      match JSON_parse raw with
      | inr message => mkParsedPolicy (Some message) None [] []
      | inl JNull => mkParsedPolicy (Some nullAccessMessage) None [] []
      | inl data =>
          let metadata :=
            if isTag (typeOf (getProp data (js "metadata"))) TObject
               && truthy (getProp data (js "metadata"))
            then getProp data (js "metadata") else None in
          let resourceRuleCandidates :=
            arrayOrEmpty (getProp data (js "resource_rules")) in
          let resourceRules :=
            map toResourceRule (filter isResourceRule resourceRuleCandidates) in
          let actionGuidelineCandidates :=
            arrayOrEmpty (getProp data (js "action_guidelines")) in
          let actionGuidelines :=
            map toActionGuideline
              (filter isActionGuideline actionGuidelineCandidates) in
          mkParsedPolicy None metadata resourceRules actionGuidelines
      end
  end.

(** ** Sample inputs *)

Module Samples.

(** Lines put together with line feeds. *)
Definition text (lines : list jsstring) : jsstring := join [10] lines.

Definition robotsNegativeDelay : jsstring :=
  text [js "User-agent: *"; js "Disallow: /admin"; js "Crawl-delay: -5"].

Definition robotsSpecExample : jsstring :=
  text [js "User-agent: *"; js "Disallow: /admin"; js "Crawl-delay: 2.5"].

Definition robotsOtherBot : jsstring :=
  text [js "Disallow: /early"; js "User-agent: other-bot";
        js "Disallow: /private"; js "Allow: /private/ok";
        js "Crawl-delay: 3"].


Definition strictState : QuickBuilderState :=
  mkQuickBuilderState (js "  Example Shop ") true false true true true true
    standard false.

Definition isoNow : jsstring := js "2024-05-01T12:00:00.000Z".

End Samples.

(** ** The spec's reading of the parser's filters *)

(** The entries [f] accepts, in order. *)
Fixpoint keepSome {A B : Type} (f : A -> option B) (l : list A) : list B :=
  match l with
  | [] => []
  | a :: l' =>
      match f a with
      | Some b => b :: keepSome f l'
      | None => keepSome f l'
      end
  end.

(** A [resource_rules] entry is kept when it is an object with a string
    [verb], a string [selector] and a boolean [allowed]; [modifiers]
    passes through as it is. *)
Definition specResourceRule (entry : value) : option ResourceRule :=
  match entry with
  | JObj props =>
      match lookup (js "verb") props, lookup (js "selector") props,
            lookup (js "allowed") props with
      | Some (JStr v), Some (JStr s), Some (JBool a) =>
          Some (mkResourceRule v s a (lookup (js "modifiers") props))
      | _, _, _ => None
      end
  | _ => None
  end.

(** An [action_guidelines] entry is kept when it has a string
    [directive] and a string [description]. *)
Definition specActionGuideline (entry : value) : option ActionGuideline :=
  match entry with
  | JObj props =>
      match lookup (js "directive") props, lookup (js "description") props with
      | Some (JStr d), Some (JStr t) =>
          Some (mkActionGuideline d t (lookup (js "exceptions") props))
      | _, _ => None
      end
  | _ => None
  end.

(** A plain object, as opposed to an array or a primitive value. *)
Definition isPlainObject (v : value) : bool :=
  match v with
  | JObj _ => true
  | _ => false
  end.

(** ** The lines that open an applicable block *)

(** A [user-agent] line whose value is [*] or names the agent. *)
Definition opensApplicableBlock (toLowerCase : jsstring -> jsstring)
    (line : jsstring) : bool :=
  match readDirective toLowerCase line with
  | Some (key, value) =>
      eqb key (js "user-agent") && agentApplies toLowerCase value
  | None => false
  end.

(** ** Notions used in the proofs *)

(** A crawl delay, when there is one, is finite. *)
Definition delayIsFinite (rules : RobotsRules) : Prop :=
  forall delay, crawlDelay rules = Some delay -> isFinite delay = true.

(** One more digit read by [digitsValue]. *)
Abbreviation digitStep :=
  (fun (acc : N) (c : code_unit) => 10 * acc + (c - 48)).

(** A code unit put in front of the string that [parseString] reads. *)
Definition consUnit (c : code_unit) (r : option (jsstring * jsstring))
  : option (jsstring * jsstring) :=
  match r with
  | Some (str, rest) => Some (c :: str, rest)
  | None => None
  end.

(** The text after a number does not go on as a number. *)
Definition numberEnds (rest : jsstring) : bool :=
  match rest with
  | [] => true
  | c :: _ => negb (isDigit c || (c =? 46) || (c =? 101) || (c =? 69))
  end.

(** The values [JSON.stringify] writes so that [JSON.parse] reads them
    back as they are: the numbers in them are non-negative integers. *)
Fixpoint safe (v : value) : bool :=
  match v with
  | JNull | JBool _ | JStr _ => true
  | JNum x =>
      match x with
      | Dec d => negb (neg d) && (exp10 d =? 0)%Z && isFinite x
      | _ => false
      end
  | JArr items => forallb safe items
  | JObj props => forallb (fun '(_, x) => safe x) props
  end.

(** A member of an object as [ser] writes it at the indentation
    [inner]. *)
Definition memberText (inner : jsstring) (kv : jsstring * value) : jsstring :=
  let '(k, x) := kv in quote k ++ js ": " ++ ser inner x.

(** What [ser] writes between two elements or two members. *)
Definition separator (inner : jsstring) : jsstring := js "," ++ [10] ++ inner.

(** A code unit that starts a value: not white space, not a closing
    bracket or brace. *)
Definition startsValue (c : code_unit) : bool :=
  negb (isJsonSpace c || (c =? 93) || (c =? 125)).

(** The text of [v], at any indentation, after any white space and
    before any text that does not continue a number, is read back as
    [v], with what follows it left over. *)
Definition roundTrips (v : value) : Prop :=
  forall (blank indent rest : jsstring) (fuel : nat),
    forallb isJsonSpace blank = true ->
    forallb isJsonSpace indent = true ->
    numberEnds rest = true ->
    (2 * List.length (blank ++ ser indent v ++ rest) < fuel)%nat ->
    parseValue fuel (blank ++ ser indent v ++ rest) = Got v rest.

(** The text of the elements [items] up to the closing bracket. *)
Definition elementsText (inner indent : jsstring) (items : list value)
    (rest : jsstring) : jsstring :=
  join (separator inner) (map (ser inner) items) ++ 10 :: indent ++ 93 :: rest.

(** The text of the members [props] up to the closing brace. *)
Definition membersText (inner indent : jsstring)
    (props : list (jsstring * value)) (rest : jsstring) : jsstring :=
  join (separator inner) (map (memberText inner) props)
  ++ 10 :: indent ++ 125 :: rest.

(** A rule whose [modifiers] survives the cleaning of [buildQuickPolicy]
    and the serialization: absent, or a truthy safe value. *)
Definition plainRule (r : ResourceRule) : bool :=
  match modifiers r with
  | None => true
  | Some m => truthy (Some m) && safe m
  end.

(** ** More notions used in the properties *)

(** A rule-set entry as the parser stores it: not empty, no white
    space at either end. *)
Definition isCleanEntry (entry : jsstring) : Prop :=
  entry <> [] /\ trim entry = entry.

(** Both lists of a rule set hold clean entries only. *)
Definition entriesClean (rules : RobotsRules) : Prop :=
  Forall isCleanEntry (disallow rules) /\ Forall isCleanEntry (allow rules).

(** [wide] holds the entries of [narrow], in the same order, then
    possibly more. *)
Definition extendsRules (narrow wide : RobotsRules) : Prop :=
  (exists more, disallow wide = disallow narrow ++ more)
  /\ (exists more, allow wide = allow narrow ++ more).

(** The same line, or the line with the carriage return that a
    following line feed takes away. *)
Definition sameLine (a b : jsstring) : Prop := a = b \/ b = a ++ [13].

(** The words of a text counted directly: the places where a code
    unit that is not white space comes first or follows white space.
    [afterSpace] tells whether the text comes after white space. *)
Fixpoint wordsFrom (afterSpace : bool) (s : jsstring) : nat :=
  match s with
  | [] => 0
  | c :: s' =>
      if isWhiteSpace c then wordsFrom true s'
      else (if afterSpace then 1 else 0) + wordsFrom false s'
  end.

Definition countWords (s : jsstring) : nat := wordsFrom true s.

(** Does the text end with a code unit that is not white space? *)
Fixpoint endsInWord (s : jsstring) : bool :=
  match s with
  | [] => false
  | c :: s' =>
      match s' with
      | [] => negb (isWhiteSpace c)
      | _ => endsInWord s'
      end
  end.

(** Does the text start with white space? *)
Definition startsBlank (s : jsstring) : bool :=
  match s with
  | [] => false
  | c :: _ => isWhiteSpace c
  end.

(** ** CrawlOrchestrator: [fetchRobots], [crawlSite] and the summary
    its caller draws *)

(** What [fetchRobots] returns when it returns anything. *)
Record RobotsInfo : Type := mkRobotsInfo {
  raw : jsstring;
  rules : RobotsRules
}.

(** The [ok] of a response: a status from 200 to 299. *)
Definition responseOk (status : Z) : bool :=
  ((200 <=? status) && (status <=? 299))%Z.

(** What the request for [/robots.txt] comes to: [fetch] throws, or a
    response arrives with a status and a body whose reading gives a
    text or throws ([None]). *)
Inductive RobotsAnswer : Type :=
| RobotsFetchThrows
| RobotsResponds (status : Z) (text : option jsstring).

Definition fetchRobots (toLowerCase : jsstring -> jsstring)
    (answer : RobotsAnswer) : option RobotsInfo :=
  match answer with
  | RobotsFetchThrows => None
  | RobotsResponds status text =>
      if negb (responseOk status) || (status =? 404)%Z then None
      else
        match text with
        | Some raw => Some (mkRobotsInfo raw (parseRobots toLowerCase raw))
        | None => None
        end
  end.

(** The parts of a parsed URL that [crawlSite] reads: the protocol,
    the path, and what [toString] gives once the fragment is emptied. *)
Record Url : Type := mkUrl {
  protocol : jsstring;
  pathname : jsstring;
  hrefWithoutHash : jsstring
}.

Definition normalizeUrl (url : Url) : option jsstring :=
  if negb (eqb (protocol url) (js "http:"))
     && negb (eqb (protocol url) (js "https:"))
  then None
  else Some (hrefWithoutHash url).

(** The options of [crawlSite]; [None] is a key that is not given. *)
Record CrawlOptions : Type := mkCrawlOptions {
  respectRobots : option bool;
  maxHtmlChars : option Z;
  maxTextChars : option Z
}.

(** [{ ...DEFAULT_OPTIONS, ...options }], key by key. *)
Definition mergedRespectRobots (options : CrawlOptions) : bool :=
  match respectRobots options with Some b => b | None => true end.

Definition mergedMaxHtmlChars (options : CrawlOptions) : Z :=
  match maxHtmlChars options with
  | Some n => n
  | None => DEFAULT_maxHtmlChars
  end.

Definition mergedMaxTextChars (options : CrawlOptions) : Z :=
  match maxTextChars options with
  | Some n => n
  | None => DEFAULT_maxTextChars
  end.

Record CrawlLogEntry : Type := mkCrawlLogEntry {
  entryUrl : jsstring;
  status : option Z;
  reason : option jsstring
}.

(** A page summary; [extracted] holds the fields that come from the
    body's markup and text. *)
Record PageSummary : Type := mkPageSummary {
  url : jsstring;
  title : option jsstring;
  extracted : ContentSummary;
  hasForms : bool;
  hasSearch : bool;
  containsLogin : bool
}.

Record CrawlResult : Type := mkCrawlResult {
  pages : list PageSummary;
  log : list CrawlLogEntry
}.

(** What the HTML library answers on the loaded page, once [script],
    [style] and [noscript] are removed: the text of the first [title],
    the markup and the text of [body], the [id] of every [form]
    ([None] where there is none), and the numbers of [search] inputs
    inside forms and of [password] inputs. *)
Record Document : Type := mkDocument {
  titleText : jsstring;
  bodyHtml : option jsstring;
  bodyText : jsstring;
  formIds : list (option jsstring);
  searchInputsInForms : nat;
  passwordInputs : nat
}.

(** A value that was thrown: an [Error] with its message, or anything
    else. *)
Inductive Thrown : Type :=
| ErrorObject (message : jsstring)
| OtherValue.

(** What reading and loading the body comes to. *)
Inductive BodyOutcome : Type :=
| BodyThrows (e : Thrown)
| BodyLoaded (doc : Document).

(** What the request for the page comes to: [fetch] throws, or a
    response arrives with a status, a [content-type] header ([None]
    when it has none) and a body. *)
Inductive FetchOutcome : Type :=
| FetchThrows (e : Thrown)
| FetchResponds (status : Z) (contentType : option jsstring)
    (body : BodyOutcome).

(** A letter of the pattern, in either case. *)
Definition sameLetter (lower c : code_unit) : bool :=
  (c =? lower) || (c =? lower - 32).

(** [/log[\s-]?in/i] at the start of [s]. *)
Definition loginAt (s : jsstring) : bool :=
  let inAt (r : jsstring) :=
    match r with
    | i :: n :: _ => sameLetter 105 i && sameLetter 110 n
    | _ => false
    end in
  match s with
  | l :: o :: g :: rest =>
      sameLetter 108 l && sameLetter 111 o && sameLetter 103 g
      && (inAt rest
          || match rest with
             | sep :: rest' =>
                 (isWhiteSpace sep || (sep =? 45)) && inAt rest'
             | [] => false
             end)
  | _ => false
  end.

(** [/log[\s-]?in/i.test(s)]. *)
Fixpoint mentionsLogin (s : jsstring) : bool :=
  loginAt s
  || match s with
     | [] => false
     | _ :: s' => mentionsLogin s'
     end.

Definition thrownMessage (e : Thrown) : jsstring :=
  match e with
  | ErrorObject message => message
  | OtherValue => js "Unknown error"
  end.

Definition skippedReason : jsstring :=
  js "Skipped (disallowed by robots.txt)".

Definition fetchedReason : jsstring :=
  js "Fetched landing page (single-page snapshot; links not followed)".

Section CrawlSite.

Variable toLowerCase : jsstring -> jsstring.

(** The [some] over the forms: an [id] that contains [login]. *)
Definition hasLoginId (id : option jsstring) : bool :=
  match id with
  | Some v => includes (toLowerCase v) (js "login")
  | None => false
  end.

(** The page summary [crawlSite] pushes. *)
Definition extractPage (normalizedUrl : jsstring) (doc : Document)
    (maxHtml maxText : Z) : PageSummary :=
  let title :=
    match trim (titleText doc) with
    | [] => None
    | t => Some t
    end in
  let rawText := trim (collapseWhiteSpace (bodyText doc)) in
  let hasForms := (0 <? List.length (formIds doc))%nat in
  let hasSearch := (0 <? searchInputsInForms doc)%nat in
  let containsLogin :=
    hasForms
    && ((0 <? passwordInputs doc)%nat
        || mentionsLogin rawText
        || existsb hasLoginId (formIds doc)) in
  mkPageSummary normalizedUrl title
    (summarizeBody (bodyHtml doc) (bodyText doc) maxHtml maxText)
    hasForms hasSearch containsLogin.

(** [crawlSite] on a target that [new URL] accepted, with what the
    network answers given as [world]. *)
Definition crawlSite (target : Url) (robots : option RobotsInfo)
    (options : CrawlOptions) (world : FetchOutcome) : CrawlResult :=
  match normalizeUrl target with
  | None => mkCrawlResult [] []
  | Some [] => mkCrawlResult [] []
  | Some normalizedUrl =>
      let refused :=
        mergedRespectRobots options
        && match robots with
           | Some info =>
               negb (isPathAllowed (pathname target) (Some (rules info)))
           | None => false
           end in
      if refused then
        mkCrawlResult []
          [mkCrawlLogEntry normalizedUrl None (Some skippedReason)]
      else
        match world with
        | FetchThrows e =>
            mkCrawlResult []
              [mkCrawlLogEntry normalizedUrl None (Some (thrownMessage e))]
        | FetchResponds status contentType body =>
            let fetched :=
              mkCrawlLogEntry normalizedUrl (Some status)
                (Some fetchedReason) in
            if negb (responseOk status) then mkCrawlResult [] [fetched]
            else if negb (includes
                            (match contentType with
                             | Some t => t
                             | None => []
                             end)
                            (js "text/html"))
            then mkCrawlResult [] [fetched]
            else
              match body with
              | BodyThrows e =>
                  mkCrawlResult []
                    [fetched;
                     mkCrawlLogEntry normalizedUrl None
                       (Some (thrownMessage e))]
              | BodyLoaded doc =>
                  mkCrawlResult
                    [extractPage normalizedUrl doc
                       (mergedMaxHtmlChars options)
                       (mergedMaxTextChars options)]
                    [fetched]
              end
        end
  end.

End CrawlSite.

(** The [crawlSummary] of the response that the route builds. *)
Record CrawlSummary : Type := mkCrawlSummary {
  totalPages : nat;
  pagesWithForms : nat;
  pagesWithLogins : nat;
  robotsPresent : bool;
  robotsCrawlDelay : option number
}.

Definition crawlSummaryOf (robots : option RobotsInfo)
    (crawlResult : CrawlResult) : CrawlSummary :=
  mkCrawlSummary
    (List.length (pages crawlResult))
    (List.length (filter hasForms (pages crawlResult)))
    (List.length (filter containsLogin (pages crawlResult)))
    (match robots with Some _ => true | None => false end)
    (match robots with Some info => crawlDelay (rules info) | None => None end).

(** The options the route gives: [{ respectRobots: true }]. *)
Definition routeOptions : CrawlOptions := mkCrawlOptions (Some true) None None.

(** The capture step of the route: the robots file is fetched, then
    the page is crawled under it. *)
Definition capture (toLowerCase : jsstring -> jsstring) (target : Url)
    (robotsAnswer : RobotsAnswer) (world : FetchOutcome)
  : option RobotsInfo * CrawlResult :=
  let robots := fetchRobots toLowerCase robotsAnswer in
  (robots, crawlSite toLowerCase target robots routeOptions world).

(** ** The route's reading of the model's answer: [parseJsonSafely] *)

(** Three backticks. *)
Definition fence : jsstring := [96; 96; 96].

(** [(?:json)?] under the flag [i]: the four letters are taken when
    they are there. *)
Definition skipJsonTag (s : jsstring) : jsstring :=
  match s with
  | j :: s1 :: o :: n :: rest =>
      if sameLetter 106 j && sameLetter 115 s1 && sameLetter 111 o
         && sameLetter 110 n
      then rest else s
  | _ => s
  end.

(** [([\s\S]*?)```]: the text up to the first fence, and the text
    after that fence. *)
Fixpoint untilFence (s : jsstring) : option (jsstring * jsstring) :=
  if startsWith s fence then Some ([], skipn 3 s)
  else
    match s with
    | [] => None
    | c :: s' =>
        match untilFence s' with
        | Some (captured, after) => Some (c :: captured, after)
        | None => None
        end
    end.

(** The regular expression of [parseJsonSafely] at the start of [s]:
    what its group captures. The tag and the white space are taken
    greedily; giving some back would not help, since the closing fence
    is made of backticks, which neither of them takes. *)
Definition fenceAt (s : jsstring) : option jsstring :=
  if startsWith s fence then
    match untilFence (trimStart (skipJsonTag (skipn 3 s))) with
    | Some (captured, _) => Some captured
    | None => None
    end
  else None.

(** [s.match(...)]: the capture of the leftmost match. *)
Fixpoint findFence (s : jsstring) : option jsstring :=
  match fenceAt s with
  | Some captured => Some captured
  | None =>
      match s with
      | [] => None
      | _ :: s' => findFence s'
      end
  end.

(** [JSON.parse] inside a [try] whose [catch] returns [null]. *)
Definition parseOrNull (text : jsstring) : value :=
  match JSON_parse text with
  | inl v => v
  | inr _ => JNull
  end.

Definition parseJsonSafely (raw : jsstring) : value :=
  match raw with
  | [] => JNull
  | _ =>
      let trimmed := trim raw in
      let candidate :=
        match findFence trimmed with
        | Some captured => trim captured
        | None => trimmed
        end in
      parseOrNull candidate
  end.

(** No backtick in the text. *)
Definition noBacktick (s : jsstring) : bool :=
  forallb (fun c => negb (c =? 96)) s.

(** ** The route's result for the model's answer: the end of
    [requestPolicyFromOpenAI] *)

Module Llm.

Record LlmResult : Type := mkLlmResult {
  model : jsstring;
  raw : jsstring;
  policy : value;
  error : option jsstring
}.

End Llm.

Definition unparsableMessage : jsstring :=
  js "Unable to parse JSON from model output.".

(** What [requestPolicyFromOpenAI] returns once it holds [raw], the
    trimmed content of the first choice (the empty string when there
    is none). *)
Definition llmResultOf (raw : jsstring) : Llm.LlmResult :=
  let policy := parseJsonSafely raw in
  Llm.mkLlmResult (js "gpt-5-mini") raw policy
    (if truthy (Some policy) then None else Some unparsableMessage).


(* ================================================================== *)
(** * Part II: properties                                              *)
(* ================================================================== *)

(** ** Strings *)

Lemma eqb_eq (s t : jsstring) : eqb s t = true <-> s = t.
Proof.
  revert t; induction s as [|c s IH]; intros [|d t]; simpl;
    try (split; [discriminate | congruence]); try tauto.
  rewrite andb_true_iff, N.eqb_eq, IH.
  split; [intros [-> ->]; reflexivity | intros H; inversion H; auto].
Qed.

Lemma eqb_refl (s : jsstring) : eqb s s = true.
Proof. apply eqb_eq; reflexivity. Qed.

Lemma eqb_neq (s t : jsstring) : eqb s t = false <-> s <> t.
Proof.
  rewrite <- eqb_eq. destruct (eqb s t); split; congruence.
Qed.

Lemma startsWith_prefix (s prefix : jsstring) :
  startsWith s prefix = true <-> exists rest, s = prefix ++ rest.
Proof.
  revert s; induction prefix as [|p prefix IH]; intros s; simpl.
  - split; [exists s; reflexivity | reflexivity].
  - destruct s as [|c s].
    + split; [discriminate | intros [rest H]; discriminate].
    + rewrite andb_true_iff, N.eqb_eq, IH. split.
      * intros [-> [rest ->]]. exists rest; reflexivity.
      * intros [rest H]. inversion H; subst. split; [reflexivity|].
        exists rest; reflexivity.
Qed.

Lemma endsWith_unit (s : jsstring) (c : code_unit) :
  endsWith s [c] = true <-> exists front, s = front ++ [c].
Proof.
  unfold endsWith. rewrite startsWith_prefix. simpl. split.
  - intros [rest H]. exists (rev rest).
    rewrite <- (rev_involutive s), H. simpl. reflexivity.
  - intros [front ->]. exists (rev front). rewrite rev_app_distr. reflexivity.
Qed.

Lemma slice0_drop_last (front : jsstring) (c : code_unit) :
  slice0 (front ++ [c]) (-1) = front.
Proof.
  unfold slice0, len.
  change (-1 <? 0)%Z with true. cbv iota.
  rewrite length_app. simpl List.length.
  replace (Z.to_nat (Z.max (Z.of_nat (List.length front + 1) + -1) 0))
    with (List.length front) by lia.
  rewrite firstn_app, Nat.sub_diag, firstn_all. simpl. apply app_nil_r.
Qed.

(** ** PathMatcher *)

(** C7. [matchesRule]: the patterns [""] and ["/"] match every path; a
    pattern that ends in [$] matches exactly the path equal to the
    pattern without that [$]; any other pattern matches exactly the
    paths that start with the pattern's text, taken literally. *)
Theorem matchesRule_spec (path pattern : jsstring) :
  (pattern = [] \/ pattern = js "/" -> matchesRule path pattern = true)
  /\ (forall exact, pattern = exact ++ js "$" ->
      (matchesRule path pattern = true <-> path = exact))
  /\ (pattern <> [] -> pattern <> js "/" ->
      (forall exact, pattern <> exact ++ js "$") ->
      (matchesRule path pattern = true <->
       exists rest, path = pattern ++ rest)).
Proof.
  split; [|split].
  - intros [-> | ->]; reflexivity.
  - intros exact ->. unfold matchesRule.
    destruct (exact ++ js "$") as [|c0 r0] eqn:E.
    { destruct exact; discriminate. }
    rewrite <- E.
    assert (Hslash : eqb (exact ++ js "$") (js "/") = false).
    { apply eqb_neq. destruct exact as [|a [|b e]]; discriminate. }
    rewrite Hslash.
    assert (Hends : endsWith (exact ++ js "$") (js "$") = true).
    { apply endsWith_unit. exists exact; reflexivity. }
    rewrite Hends. change (js "$") with [36]. rewrite slice0_drop_last.
    apply eqb_eq.
  - intros Hne Hslash Hdollar. unfold matchesRule.
    destruct pattern as [|c0 r0]; [congruence|].
    apply eqb_neq in Hslash. rewrite Hslash.
    destruct (endsWith (c0 :: r0) (js "$")) eqn:Hends.
    + apply endsWith_unit in Hends. destruct Hends as [front Hfront].
      exfalso. apply (Hdollar front). exact Hfront.
    + apply startsWith_prefix.
Qed.

(** The theorem at a pattern of each kind. *)
Lemma matchesRule_spec_witness :
  matchesRule (js "/any/path") (js "/") = true
  /\ (matchesRule (js "/a.html") (js "/a.html$") = true <->
      js "/a.html" = js "/a.html")
  /\ (matchesRule (js "/admin/x") (js "/admin") = true <->
      exists rest, js "/admin/x" = js "/admin" ++ rest).
Proof.
  split; [|split].
  - apply (proj1 (matchesRule_spec (js "/any/path") (js "/"))).
    right; reflexivity.
  - apply (proj1 (proj2 (matchesRule_spec (js "/a.html") (js "/a.html$")))).
    reflexivity.
  - apply (proj2 (proj2 (matchesRule_spec (js "/admin/x") (js "/admin")))).
    + discriminate.
    + discriminate.
    + intros exact H.
      assert (E : endsWith (js "/admin") (js "$") = true)
        by (apply endsWith_unit; exists exact; exact H).
      vm_compute in E. discriminate.
Defined.

Lemma firstMatch_exists (path : jsstring) (rules : list jsstring) :
  firstMatch path rules = true <->
  exists rule, In rule rules /\ matchesRule path rule = true.
Proof.
  induction rules as [|rule rules IH]; simpl.
  - split; [discriminate | intros [r [[] _]]].
  - destruct (matchesRule path rule) eqn:E.
    + split; [intros _; exists rule; auto | reflexivity].
    + rewrite IH. split.
      * intros [r [Hin Hm]]. exists r; auto.
      * intros [r [[<- | Hin] Hm]]; [congruence | exists r; auto].
Qed.

Lemma firstMatch_none (path : jsstring) (rules : list jsstring) :
  firstMatch path rules = false <->
  forall rule, In rule rules -> matchesRule path rule = false.
Proof.
  split.
  - intros H rule Hin. destruct (matchesRule path rule) eqn:E; [|reflexivity].
    rewrite <- H. symmetry. apply firstMatch_exists. exists rule; auto.
  - intros H. destruct (firstMatch path rules) eqn:E; [|reflexivity].
    apply firstMatch_exists in E. destruct E as [rule [Hin Hm]].
    rewrite (H rule Hin) in Hm. discriminate.
Qed.

(** C2, as the code has it. An allow entry that matches the path as
    [isPathAllowed] normalizes it (the path itself when it is not
    empty, ["/"] when it is) makes the path allowed, whatever the
    disallow entries are; when no allow entry matches, the path is
    allowed exactly when no disallow entry matches, so that it is
    allowed when neither list matches. *)
Theorem allow_entries_take_priority (rules : RobotsRules) (path : jsstring) :
  ((exists entry, In entry (allow rules)
                  /\ matchesRule (normalizedPath path) entry = true) ->
   isPathAllowed path (Some rules) = true)
  /\ (path <> [] ->
      (exists entry, In entry (allow rules)
                     /\ matchesRule path entry = true) ->
      isPathAllowed path (Some rules) = true)
  /\ ((forall entry, In entry (allow rules) ->
                     matchesRule (normalizedPath path) entry = false) ->
      (isPathAllowed path (Some rules) = true <->
       forall entry, In entry (disallow rules) ->
                     matchesRule (normalizedPath path) entry = false)).
Proof.
  assert (H1 : (exists entry, In entry (allow rules)
                   /\ matchesRule (normalizedPath path) entry = true) ->
               isPathAllowed path (Some rules) = true).
  { intros H. apply firstMatch_exists in H. unfold isPathAllowed.
    rewrite H. reflexivity. }
  split; [exact H1 | split].
  - intros Hne H. apply H1. destruct path; [congruence | exact H].
  - intros H. apply firstMatch_none in H. unfold isPathAllowed. rewrite H.
    rewrite <- firstMatch_none.
    destruct (firstMatch (normalizedPath path) (disallow rules));
      split; congruence.
Qed.

(** The theorem on a rule set whose allow and disallow lists both match
    the path. *)
Lemma allow_entries_take_priority_witness :
  isPathAllowed (js "/private/ok")
    (Some (mkRobotsRules [js "/private"] [js "/private/ok"] None)) = true.
Proof.
  apply (proj1 (allow_entries_take_priority
                  (mkRobotsRules [js "/private"] [js "/private/ok"] None)
                  (js "/private/ok"))).
  exists (js "/private/ok"). split; [left; reflexivity | reflexivity].
Defined.

(** C2 as it is worded fails on the empty path: the allow entry [$]
    matches the empty path, but [isPathAllowed] looks rules up for
    ["/"], which [$] does not match and the disallow entry does. *)
Lemma allow_match_on_empty_path_not_enough :
  ~ (forall (rules : RobotsRules) (path : jsstring),
        (exists entry, In entry (allow rules)
                       /\ matchesRule path entry = true) ->
        isPathAllowed path (Some rules) = true).
Proof.
  intros H.
  specialize (H (mkRobotsRules [js "/"] [js "$"] None) []).
  assert (E : isPathAllowed [] (Some (mkRobotsRules [js "/"] [js "$"] None))
              = false) by reflexivity.
  rewrite H in E; [discriminate|].
  exists (js "$"). split; [left; reflexivity | reflexivity].
Qed.

(** ** RuleStore *)

Section RuleStoreProperties.

Variable toLowerCase : jsstring -> jsstring.

Local Abbreviation step := (parseLine toLowerCase).
Local Abbreviation opens := (opensApplicableBlock toLowerCase).

(** Outside an applicable block, a line that does not open one leaves
    the flag and the rules as they are. *)
Lemma parseLine_outside_block (rules : RobotsRules) (line : jsstring) :
  opens line = false -> step (false, rules) line = (false, rules).
Proof.
  unfold opensApplicableBlock, parseLine.
  destruct (readDirective toLowerCase line) as [[key value]|];
    [|reflexivity].
  destruct (eqb key (js "user-agent")); simpl.
  - intros ->. reflexivity.
  - reflexivity.
Qed.

Lemma parseLines_outside_block (rules : RobotsRules) (lines : list jsstring) :
  existsb opens lines = false ->
  fold_left step lines (false, rules) = (false, rules).
Proof.
  induction lines as [|line lines IH]; cbn [existsb fold_left];
    [reflexivity|].
  intros H. apply orb_false_iff in H. destruct H as [Hline Hlines].
  rewrite parseLine_outside_block by exact Hline. apply IH, Hlines.
Qed.

(** Whatever the flag and the rules are, a crawl delay that a line
    stores is finite, and one it keeps is the one it found. *)
Lemma parseLine_delay_finite (st : bool * RobotsRules) (line : jsstring) :
  delayIsFinite (snd st) -> delayIsFinite (snd (step st line)).
Proof.
  destruct st as [applies rules]. unfold parseLine. simpl. intros Hinv.
  destruct (readDirective toLowerCase line) as [[key value]|]; [|exact Hinv].
  destruct (eqb key (js "user-agent")); [exact Hinv|].
  destruct applies; simpl; [|exact Hinv].
  destruct (eqb key (js "disallow")).
  { destruct value; exact Hinv. }
  destruct (eqb key (js "allow")).
  { destruct value; exact Hinv. }
  destruct (eqb key (js "crawl-delay")); [|exact Hinv].
  destruct (isFinite (parseFloat value)) eqn:Hfin; [|exact Hinv].
  intros delay Hd. simpl in Hd. inversion Hd; subst. exact Hfin.
Qed.

Lemma parseLines_delay_finite (lines : list jsstring)
    (st : bool * RobotsRules) :
  delayIsFinite (snd st) -> delayIsFinite (snd (fold_left step lines st)).
Proof.
  revert st; induction lines as [|line lines IH]; intros st Hinv;
    cbn [fold_left].
  - exact Hinv.
  - apply IH, parseLine_delay_finite, Hinv.
Qed.

End RuleStoreProperties.

(** C8. A text none of whose lines is a [user-agent] line for [*] or
    for the agent gives the empty rule set; and the lines that come
    before the first such line contribute nothing: the rule set is the
    one of the lines that follow them. *)
Theorem directives_outside_block_ignored
    (toLowerCase : jsstring -> jsstring) :
  (forall content,
      existsb (opensApplicableBlock toLowerCase) (splitLines content) = false ->
      parseRobots toLowerCase content = emptyRules)
  /\ (forall before after,
      existsb (opensApplicableBlock toLowerCase) before = false ->
      parseLines toLowerCase (before ++ after)
      = parseLines toLowerCase after).
Proof.
  split.
  - intros content H. unfold parseRobots, parseLines.
    rewrite parseLines_outside_block by exact H. reflexivity.
  - intros before after H. unfold parseLines.
    rewrite fold_left_app, parseLines_outside_block by exact H. reflexivity.
Qed.

(** The theorem on a text whose only block is for [other-bot], with one
    directive before the block and three inside it. *)
Lemma directives_outside_block_ignored_witness :
  parseRobots lowerLatin1 Samples.robotsOtherBot = emptyRules.
Proof.
  apply (proj1 (directives_outside_block_ignored lowerLatin1)).
  vm_compute. reflexivity.
Defined.

(** C4, as the code has it. The crawl delay of the rule set that
    [parseRobots] returns, when there is one, is a finite number: the
    only test on the parsed value is [Number.isFinite]. *)
Theorem crawlDelay_is_finite (toLowerCase : jsstring -> jsstring)
    (content : jsstring) (delay : number) :
  crawlDelay (parseRobots toLowerCase content) = Some delay ->
  isFinite delay = true.
Proof.
  unfold parseRobots, parseLines.
  apply (parseLines_delay_finite toLowerCase (splitLines content)
           (false, emptyRules)).
  intros d Hd. discriminate.
Qed.

(** The theorem on the example text of the specification. *)
Lemma crawlDelay_is_finite_witness :
  crawlDelay (parseRobots lowerLatin1 Samples.robotsSpecExample)
  = Some (Dec (mkDecimal false 25 (-1)))
  /\ isFinite (Dec (mkDecimal false 25 (-1))) = true.
Proof.
  split; [reflexivity|].
  apply (crawlDelay_is_finite lowerLatin1 Samples.robotsSpecExample).
  reflexivity.
Defined.

(** C4 as it is worded fails: the directive [Crawl-delay: -5] in an
    applicable block is stored, and [-5] is negative. *)
Lemma crawlDelay_can_be_negative :
  ~ (forall (content : jsstring) (delay : number),
        crawlDelay (parseRobots lowerLatin1 content) = Some delay ->
        isFinite delay = true /\ isNegative delay = false).
Proof.
  intros H.
  destruct (H Samples.robotsNegativeDelay (Dec (mkDecimal true 5 0)))
    as [_ Hneg]; [reflexivity|].
  vm_compute in Hneg. discriminate.
Qed.

(** ** PageExtractor *)

Lemma len_app (s t : jsstring) : len (s ++ t) = (len s + len t)%Z.
Proof. unfold len. rewrite length_app. lia. Qed.

Lemma truncate_within (text : jsstring) (maxLength : Z) :
  (len text <= maxLength)%Z -> truncate text maxLength = text.
Proof.
  intros H. unfold truncate.
  destruct (len text <=? maxLength)%Z eqn:E; [reflexivity|].
  apply Z.leb_gt in E. lia.
Qed.

(** A text over the ceiling is cut to the ceiling and gets the marker. *)
Lemma truncate_beyond (text : jsstring) (maxLength : Z) :
  (0 <= maxLength < len text)%Z ->
  truncate text maxLength = firstn (Z.to_nat maxLength) text ++ js "..."
  /\ len (truncate text maxLength) = (maxLength + 3)%Z.
Proof.
  intros H. unfold truncate.
  destruct (len text <=? maxLength)%Z eqn:E.
  { apply Z.leb_le in E. lia. }
  unfold slice0. destruct (maxLength <? 0)%Z eqn:E0.
  { apply Z.ltb_lt in E0. lia. }
  split; [reflexivity|].
  rewrite len_app. unfold len in *. rewrite length_firstn. simpl. lia.
Qed.

(** The flag compares the text with the truncated text, marker
    included: it is set when the text is more than three code units
    over the ceiling. *)
Lemma truncation_flag (text : jsstring) (maxLength : Z) :
  (0 <= maxLength)%Z ->
  (len (truncate text maxLength) <? len text)%Z
  = (maxLength + 3 <? len text)%Z.
Proof.
  intros H0. destruct (Z_le_gt_dec (len text) maxLength) as [Hle | Hgt].
  - rewrite truncate_within by exact Hle.
    rewrite Z.ltb_irrefl. symmetry. apply Z.ltb_ge. lia.
  - destruct (truncate_beyond text maxLength) as [_ ->]; [lia|]. reflexivity.
Qed.

Lemma summary_flags (html : option jsstring) (text : jsstring)
    (maxHtmlChars maxTextChars : Z) :
  (0 <= maxHtmlChars)%Z -> (0 <= maxTextChars)%Z ->
  let page := summarizeBody html text maxHtmlChars maxTextChars in
  isTextTruncated page
  = (maxTextChars + 3 <? len (trim (collapseWhiteSpace text)))%Z
  /\ isHtmlTruncated page
     = (maxHtmlChars + 3
        <? len (match html with Some h => trim h | None => [] end))%Z.
Proof.
  intros Hh Ht. simpl. split; apply truncation_flag; assumption.
Qed.

Lemma rev_repeat (c : code_unit) (n : nat) : rev (repeat c n) = repeat c n.
Proof.
  induction n as [|n IH]; simpl; [reflexivity|].
  rewrite IH. symmetry. apply repeat_cons.
Qed.

Lemma trimStart_repeat (c : code_unit) (n : nat) :
  isWhiteSpace c = false -> trimStart (repeat c n) = repeat c n.
Proof. intros H. destruct n; simpl; [|rewrite H]; reflexivity. Qed.

Lemma trim_repeat (c : code_unit) (n : nat) :
  isWhiteSpace c = false -> trim (repeat c n) = repeat c n.
Proof.
  intros H. unfold trim, trimEnd.
  rewrite (trimStart_repeat c n H), rev_repeat, (trimStart_repeat c n H).
  apply rev_repeat.
Qed.

Lemma collapseWhiteSpace_repeat (c : code_unit) (n : nat) :
  isWhiteSpace c = false -> collapseWhiteSpace (repeat c n) = repeat c n.
Proof.
  intros H. induction n as [|n IH]; simpl; [reflexivity|].
  rewrite H, IH. reflexivity.
Qed.

Lemma firstn_repeat_S (c : code_unit) (n : nat) :
  firstn n (repeat c (S n)) = repeat c n.
Proof. induction n as [|n IH]; simpl in *; [|rewrite IH]; reflexivity. Qed.

(** A text one code unit over the ceiling is cut, and the flag stays
    unset. *)
Lemma truncate_one_over (c : code_unit) (maxLength : Z) :
  (0 <= maxLength)%Z ->
  let text := repeat c (S (Z.to_nat maxLength)) in
  truncate text maxLength = repeat c (Z.to_nat maxLength) ++ js "..."
  /\ (len (truncate text maxLength) <? len text)%Z = false.
Proof.
  intros H0 text.
  assert (Hlen : len text = (maxLength + 1)%Z).
  { unfold len, text. rewrite repeat_length. lia. }
  split.
  - destruct (truncate_beyond text maxLength) as [-> _]; [lia|].
    unfold text. rewrite firstn_repeat_S. reflexivity.
  - rewrite truncation_flag by lia. apply Z.ltb_ge. lia.
Qed.

Lemma summary_one_over (c : code_unit) (maxHtmlChars maxTextChars : Z) :
  isWhiteSpace c = false ->
  (0 <= maxHtmlChars)%Z -> (0 <= maxTextChars)%Z ->
  let text := repeat c (S (Z.to_nat maxTextChars)) in
  let html := repeat c (S (Z.to_nat maxHtmlChars)) in
  let page := summarizeBody (Some html) text maxHtmlChars maxTextChars in
  (len (trim (collapseWhiteSpace text)) = maxTextChars + 1)%Z
  /\ textContent page = repeat c (Z.to_nat maxTextChars) ++ js "..."
  /\ isTextTruncated page = false
  /\ (len (trim html) = maxHtmlChars + 1)%Z
  /\ htmlContent page = repeat c (Z.to_nat maxHtmlChars) ++ js "..."
  /\ isHtmlTruncated page = false.
Proof.
  intros Hws Hh Ht text html page.
  unfold page, summarizeBody.
  cbn [textContent htmlContent isTextTruncated isHtmlTruncated].
  unfold text, html.
  rewrite (collapseWhiteSpace_repeat c (S (Z.to_nat maxTextChars)) Hws).
  rewrite (trim_repeat c (S (Z.to_nat maxTextChars)) Hws).
  rewrite (trim_repeat c (S (Z.to_nat maxHtmlChars)) Hws).
  destruct (truncate_one_over c maxTextChars Ht) as [Et Ft].
  destruct (truncate_one_over c maxHtmlChars Hh) as [Eh Fh].
  unfold len at 1 4. rewrite !repeat_length.
  repeat split; try assumption; lia.
Qed.

(** C1, at an input where the code departs from it. With the default
    ceilings, a body text and a body markup that are one code unit over
    their ceilings (12001 and 20001 code units, no white space) are cut,
    marker appended, yet neither flag is set. *)
Theorem truncation_flags_miss_short_overrun :
  let text := repeat 97 (S (Z.to_nat DEFAULT_maxTextChars)) in
  let html := repeat 97 (S (Z.to_nat DEFAULT_maxHtmlChars)) in
  let page :=
    summarizeBody (Some html) text DEFAULT_maxHtmlChars DEFAULT_maxTextChars in
  (len (trim (collapseWhiteSpace text)) = 12000 + 1)%Z
  /\ textContent page = repeat 97 (Z.to_nat DEFAULT_maxTextChars) ++ js "..."
  /\ isTextTruncated page = false
  /\ (len (trim html) = 20000 + 1)%Z
  /\ htmlContent page = repeat 97 (Z.to_nat DEFAULT_maxHtmlChars) ++ js "..."
  /\ isHtmlTruncated page = false.
Proof.
  apply (summary_one_over 97 DEFAULT_maxHtmlChars DEFAULT_maxTextChars).
  - reflexivity.
  - discriminate.
  - discriminate.
Qed.

(** ** PolicyModel: the parser *)

Lemma trimStart_head (s : jsstring) (c : code_unit) (r : jsstring) :
  trimStart s = c :: r -> isWhiteSpace c = false.
Proof.
  induction s as [|d s IH]; simpl; [discriminate|].
  destruct (isWhiteSpace d) eqn:E; [exact IH|].
  intros H. inversion H; subst. exact E.
Qed.

Lemma trimStart_blank (s : jsstring) :
  trimStart s = [] -> forallb isWhiteSpace s = true.
Proof.
  induction s as [|d s IH]; simpl; [reflexivity|].
  destruct (isWhiteSpace d); [exact IH | discriminate].
Qed.

Lemma trimStart_keeps_last (s : jsstring) (c : code_unit) :
  isWhiteSpace c = false -> trimStart (s ++ [c]) <> [].
Proof.
  intros H. induction s as [|d s IH]; simpl.
  - rewrite H. discriminate.
  - destruct (isWhiteSpace d); [exact IH | discriminate].
Qed.

(** A string that [trim] empties is made of white space. *)
Lemma trim_blank (s : jsstring) :
  trim s = [] -> forallb isWhiteSpace s = true.
Proof.
  unfold trim, trimEnd. intros H. apply trimStart_blank.
  destruct (trimStart s) as [|c r] eqn:E; [reflexivity|].
  exfalso. apply trimStart_head in E.
  apply (f_equal (@rev code_unit)) in H. rewrite rev_involutive in H.
  simpl in H. exact (trimStart_keeps_last (rev r) c E H).
Qed.

Lemma skipSpace_head (s : jsstring) (c : code_unit) (r : jsstring) :
  forallb isWhiteSpace s = true -> skipSpace s = c :: r ->
  isWhiteSpace c = true.
Proof.
  induction s as [|d s IH]; simpl; [discriminate|].
  intros H. apply andb_true_iff in H. destruct H as [Hd Hs].
  destruct (isJsonSpace d); [exact (IH Hs)|].
  intros E. inversion E; subst. exact Hd.
Qed.

(** No white space character starts a JSON value. *)
Lemma whiteSpace_starts_no_value (c : code_unit) :
  isWhiteSpace c = true ->
  (c =? 123) = false /\ (c =? 91) = false /\ (c =? 34) = false
  /\ (c =? 116) = false /\ (c =? 102) = false /\ (c =? 110) = false
  /\ (c =? 45) = false /\ isDigit c = false.
Proof.
  unfold isWhiteSpace, isDigit. intros H.
  repeat rewrite orb_true_iff in H. repeat rewrite andb_true_iff in H.
  repeat rewrite N.leb_le in H. repeat rewrite N.eqb_eq in H.
  repeat split; try (apply N.eqb_neq; lia).
  apply andb_false_iff. rewrite N.leb_gt, N.leb_gt. lia.
Qed.

Lemma parseValue_blank (fuel : nat) (s : jsstring) :
  forallb isWhiteSpace s = true ->
  parseValue fuel s = Malformed \/ parseValue fuel s = Exhausted.
Proof.
  intros H. destruct fuel as [|fuel]; [right; reflexivity|]. left.
  cbn [parseValue]. unfold valueStep.
  destruct (skipSpace s) as [|c r] eqn:E; [reflexivity|].
  destruct (whiteSpace_starts_no_value c (skipSpace_head s c r H E))
    as (H1 & H2 & H3 & H4 & H5 & H6 & H7 & H8).
  rewrite H1, H2, H3. cbn [startsWith js map list_ascii_of_string N_of_ascii
    N_of_digits].
  simpl N.add. simpl N.mul.
  rewrite H4, H5, H6. simpl. unfold parseNumber. rewrite H7.
  simpl. rewrite H8. reflexivity.
Qed.

(** A blank text is not JSON. *)
Lemma JSON_parse_blank (raw : jsstring) :
  trim raw = [] -> JSON_parse raw = inr syntaxErrorMessage.
Proof.
  intros H. apply trim_blank in H. unfold JSON_parse.
  destruct (parseValue_blank (2 * List.length raw + 2) raw H) as [-> | ->];
    reflexivity.
Qed.

(** C10. On an empty or blank text [parsePolicy] returns no error, no
    metadata and two empty lists, although [JSON.parse] rejects such a
    text. *)
Theorem parsePolicy_blank (raw : jsstring) :
  trim raw = [] ->
  parsePolicy raw = mkParsedPolicy None None [] []
  /\ JSON_parse raw = inr syntaxErrorMessage.
Proof.
  intros H. split.
  - unfold parsePolicy. rewrite H. reflexivity.
  - apply JSON_parse_blank, H.
Qed.

(** The theorem on a text of a space, a tab, a line feed and a
    no-break space. *)
Lemma parsePolicy_blank_witness :
  parsePolicy [32; 9; 10; 160] = mkParsedPolicy None None [] []
  /\ JSON_parse [32; 9; 10; 160] = inr syntaxErrorMessage.
Proof.
  apply (parsePolicy_blank [32; 9; 10; 160]). reflexivity.
Defined.

(** What [parsePolicy] does with a decoded value. *)
Lemma parsePolicy_decoded (raw : jsstring) (data : value) :
  JSON_parse raw = inl data ->
  parsePolicy raw =
  match data with
  | JNull => mkParsedPolicy (Some nullAccessMessage) None [] []
  | _ =>
      mkParsedPolicy None
        (if isTag (typeOf (getProp data (js "metadata"))) TObject
            && truthy (getProp data (js "metadata"))
         then getProp data (js "metadata") else None)
        (map toResourceRule
           (filter isResourceRule
              (arrayOrEmpty (getProp data (js "resource_rules")))))
        (map toActionGuideline
           (filter isActionGuideline
              (arrayOrEmpty (getProp data (js "action_guidelines")))))
  end.
Proof.
  intros H. unfold parsePolicy.
  destruct (trim raw) eqn:E.
  { rewrite (JSON_parse_blank raw E) in H. discriminate. }
  rewrite H. destruct data; reflexivity.
Qed.

Lemma parsePolicy_rejected (raw message : jsstring) :
  JSON_parse raw = inr message ->
  parsePolicy raw = mkParsedPolicy None None [] []
  \/ parsePolicy raw = mkParsedPolicy (Some message) None [] [].
Proof.
  intros H. unfold parsePolicy. rewrite H.
  destruct (trim raw); [left | right]; reflexivity.
Qed.

(** C5, as the code has it. The result carries the decoded [metadata]
    exactly when that value is an object in the sense of [typeof] and
    is not [null]: a plain object or an array. For any other value
    (absent, [null], a string, a number, a boolean), as for a [null]
    document and for a text that does not decode, it has no metadata. *)
Theorem metadata_passes_when_object (raw : jsstring) :
  (forall data, JSON_parse raw = inl data ->
     metadata (parsePolicy raw) =
     match getProp data (js "metadata") with
     | Some (JObj props) => Some (JObj props)
     | Some (JArr items) => Some (JArr items)
     | _ => None
     end)
  /\ (forall message, JSON_parse raw = inr message ->
        metadata (parsePolicy raw) = None).
Proof.
  split.
  - intros data H. rewrite (parsePolicy_decoded raw data H).
    destruct data; try reflexivity.
    cbn [metadata]. destruct (getProp (JObj props) (js "metadata")) as [[]|];
      reflexivity.
  - intros message H.
    destruct (parsePolicy_rejected raw message H) as [-> | ->]; reflexivity.
Qed.

(** The theorem on a document with an object for metadata. *)
Lemma metadata_passes_when_object_witness :
  metadata (parsePolicy (jsq "{'metadata':{'author':'me'}}"))
  = Some (JObj [(js "author", JStr (js "me"))]).
Proof.
  apply (proj1 (metadata_passes_when_object
                  (jsq "{'metadata':{'author':'me'}}"))
           (JObj [(js "metadata", JObj [(js "author", JStr (js "me"))])])).
  reflexivity.
Defined.

(** C5 as it is worded fails: an array is not a plain object, and it
    passes through as metadata. *)
Lemma metadata_can_be_an_array :
  ~ (forall (raw : jsstring) (data m : value),
        JSON_parse raw = inl data ->
        metadata (parsePolicy raw) = Some m ->
        isPlainObject m = true).
Proof.
  intros H.
  specialize (H (jsq "{'metadata':[1]}")
                (JObj [(js "metadata", JArr [JNum (ofN 1)])])
                (JArr [JNum (ofN 1)]) eq_refl eq_refl).
  discriminate.
Qed.

Lemma isResourceRule_spec (entry : value) :
  specResourceRule entry
  = if isResourceRule entry then Some (toResourceRule entry) else None.
Proof.
  unfold isResourceRule, toResourceRule, specResourceRule.
  destruct entry; cbn [getProp typeOf isTag];
    try (rewrite !andb_false_r; reflexivity).
  destruct (lookup (js "verb") props) as [[]|]; try reflexivity;
    destruct (lookup (js "selector") props) as [[]|]; try reflexivity;
    destruct (lookup (js "allowed") props) as [[]|]; reflexivity.
Qed.

Lemma isActionGuideline_spec (entry : value) :
  specActionGuideline entry
  = if isActionGuideline entry then Some (toActionGuideline entry) else None.
Proof.
  unfold isActionGuideline, toActionGuideline, specActionGuideline.
  destruct entry; cbn [getProp typeOf isTag];
    try (rewrite !andb_false_r; reflexivity).
  destruct (lookup (js "directive") props) as [[]|]; try reflexivity;
    destruct (lookup (js "description") props) as [[]|]; reflexivity.
Qed.

Lemma filter_map_keepSome {A B : Type} (keep : A -> bool) (to : A -> B)
    (f : A -> option B) (l : list A) :
  (forall a, f a = if keep a then Some (to a) else None) ->
  map to (filter keep l) = keepSome f l.
Proof.
  intros H. induction l as [|a l IH]; simpl; [reflexivity|].
  rewrite H. destruct (keep a); simpl; rewrite IH; reflexivity.
Qed.

(** C9. When the text decodes, the rules of the result are the entries
    of [resource_rules] that are objects with a string [verb], a string
    [selector] and a boolean [allowed], with [modifiers] as it came, and
    the guidelines are the entries of [action_guidelines] with a string
    [directive] and a string [description]; the other entries are left
    out, and no entry produces an error. The document
    [{"resource_rules":[{"verb":"x"}]}] gives no rule and no error. *)
Theorem parsePolicy_keeps_shaped_entries :
  (forall raw data, JSON_parse raw = inl data ->
     resourceRules (parsePolicy raw)
     = keepSome specResourceRule
         (arrayOrEmpty (getProp data (js "resource_rules")))
     /\ actionGuidelines (parsePolicy raw)
        = keepSome specActionGuideline
            (arrayOrEmpty (getProp data (js "action_guidelines")))
     /\ (data <> JNull -> error (parsePolicy raw) = None))
  /\ resourceRules (parsePolicy (jsq "{'resource_rules':[{'verb':'x'}]}")) = []
  /\ error (parsePolicy (jsq "{'resource_rules':[{'verb':'x'}]}")) = None.
Proof.
  split; [|split; reflexivity].
  intros raw data H. rewrite (parsePolicy_decoded raw data H).
  destruct data; try (repeat split; try reflexivity; congruence).
  cbn [resourceRules actionGuidelines error]. repeat split.
  - apply filter_map_keepSome, isResourceRule_spec.
  - apply filter_map_keepSome, isActionGuideline_spec.
Qed.

(** The theorem on a document with one entry of each list that has the
    shape and others that do not. *)
Lemma parsePolicy_keeps_shaped_entries_witness :
  resourceRules
    (parsePolicy
       (jsq "{'resource_rules':[{'verb':'x'}, 7, null, {'verb':'read_content','selector':'*','allowed':true,'modifiers':3}], 'action_guidelines':[{'directive':'MUST'}, {'directive':'MUST','description':'d'}]}"))
  = [mkResourceRule (js "read_content") (js "*") true (Some (JNum (ofN 3)))].
Proof.
  refine (eq_trans
            (proj1 (proj1 parsePolicy_keeps_shaped_entries _ _ _)) _).
  - vm_compute. reflexivity.
  - vm_compute. reflexivity.
Defined.

(** ** The fuel of [JSON_parse] is enough *)

Lemma skipSpace_length (s : jsstring) :
  (List.length (skipSpace s) <= List.length s)%nat.
Proof.
  induction s as [|c s IH]; cbn [skipSpace]; [lia|].
  destruct (isJsonSpace c); cbn [List.length]; lia.
Qed.

Lemma skipSpace_cons_length (s : jsstring) (c : code_unit) (r : jsstring) :
  skipSpace s = c :: r -> (List.length r < List.length s)%nat.
Proof.
  intros H. pose proof (skipSpace_length s) as L. rewrite H in L.
  cbn [List.length] in L. lia.
Qed.

Lemma parseString_length_bounded (n : nat) :
  forall (s str r : jsstring),
    (List.length s <= n)%nat ->
    parseString s = Some (str, r) -> (List.length r < List.length s)%nat.
Proof.
  induction n as [|n IH]; intros s str r Hn H.
  - destruct s; [discriminate | cbn [List.length] in Hn; lia].
  - destruct s as [|c s]; [discriminate|].
    cbn [parseString] in H. cbn [List.length] in *.
    destruct (c =? 34).
    { inversion H; subst. lia. }
    destruct (c =? 92).
    + destruct s as [|e s]; [discriminate|]. cbn [List.length] in *.
      destruct (e =? 117).
      * destruct s as [|h1 [|h2 [|h3 [|h4 s]]]]; try discriminate.
        cbn [List.length] in *. destruct (hex4 h1 h2 h3 h4); [|discriminate].
        destruct (parseString s) as [[str' r']|] eqn:E; [|discriminate].
        inversion H; subst. apply IH in E; lia.
      * destruct (escapeOf e); [|discriminate].
        destruct (parseString s) as [[str' r']|] eqn:E; [|discriminate].
        inversion H; subst. apply IH in E; lia.
    + destruct (c <? 32); [discriminate|].
      destruct (parseString s) as [[str' r']|] eqn:E; [|discriminate].
      inversion H; subst. apply IH in E; lia.
Qed.

Lemma parseString_length (s str r : jsstring) :
  parseString s = Some (str, r) -> (List.length r < List.length s)%nat.
Proof. apply (parseString_length_bounded (List.length s)). lia. Qed.

Lemma takeDigits_length (s : jsstring) :
  (List.length (snd (takeDigits s)) <= List.length s)%nat
  /\ (fst (takeDigits s) <> [] ->
      List.length (snd (takeDigits s)) < List.length s)%nat.
Proof.
  induction s as [|c s [IH1 IH2]]; cbn [takeDigits].
  - split; [cbn; lia | intros H; contradiction H; reflexivity].
  - destruct (isDigit c).
    + destruct (takeDigits s) as [ds r]. cbn [fst snd List.length] in *.
      split; [lia | intros _; lia].
    + cbn [fst snd]. split; [lia | intros H; contradiction H; reflexivity].
Qed.

Lemma takeExponent_length (s : jsstring) (e : Z) (r : jsstring) :
  takeExponent s = Some (e, r) -> (List.length r < List.length s)%nat.
Proof.
  unfold takeExponent. destruct s as [|c s]; [discriminate|].
  destruct ((c =? 101) || (c =? 69)); [|discriminate].
  assert (Hs : (List.length (snd (takeSign s)) <= List.length s)%nat).
  { unfold takeSign. destruct s as [|d s]; [cbn; lia|].
    destruct (d =? 45); [cbn; lia|]. destruct (d =? 43); cbn; lia. }
  destruct (takeSign s) as [negative s'']. cbn [snd] in Hs.
  pose proof (proj1 (takeDigits_length s'')) as L.
  destruct (takeDigits s'') as [[|d ds] rest]; [discriminate|].
  cbn [snd] in L. intros H. inversion H; subst. cbn [List.length]. lia.
Qed.

Lemma parseNumber_length (s : jsstring) :
  parseNumber s <> Exhausted
  /\ forall v r, parseNumber s = Got v r -> (List.length r < List.length s)%nat.
Proof.
  unfold parseNumber.
  set (signed := match s with
                 | c :: s' => if c =? 45 then (true, s') else (false, s)
                 | [] => (false, s)
                 end).
  assert (Hs : (List.length (snd signed) <= List.length s)%nat).
  { unfold signed. destruct s as [|c s]; [cbn; lia|].
    destruct (c =? 45); cbn; lia. }
  destruct signed as [negative s1]. cbn [snd] in Hs.
  pose proof (takeDigits_length s1) as [_ L].
  destruct (takeDigits s1) as [[|i ints'] s2]; [split; [discriminate|]; intros; discriminate|].
  cbn [fst snd] in L. specialize (L ltac:(discriminate)).
  destruct ((i =? 48) && negb match ints' with [] => true | _ => false end);
    [split; [discriminate|]; intros; discriminate|].
  set (fraction := match s2 with
                   | c :: s' =>
                       if c =? 46 then
                         match takeDigits s' with
                         | ([], _) => None
                         | (fracs, s3) => Some (fracs, s3)
                         end
                       else Some ([], s2)
                   | [] => Some ([], s2)
                   end).
  assert (Hf : forall fracs s3, fraction = Some (fracs, s3) ->
               (List.length s3 <= List.length s2)%nat).
  { unfold fraction. intros fracs s3. destruct s2 as [|c s'].
    - intros H; inversion H; subst; lia.
    - destruct (c =? 46).
      + pose proof (proj1 (takeDigits_length s')) as L'.
        destruct (takeDigits s') as [[|f fs] s3']; [discriminate|].
        intros H; inversion H; subst. cbn [snd List.length] in *. lia.
      + intros H; inversion H; subst; lia. }
  destruct fraction as [[fracs s3]|]; [|split; [discriminate|]; intros; discriminate].
  specialize (Hf fracs s3 eq_refl).
  destruct s3 as [|c s3'].
  - split; [discriminate|]. intros v r H. inversion H; subst. lia.
  - destruct ((c =? 101) || (c =? 69)).
    + destruct (takeExponent (c :: s3')) as [[e s4]|] eqn:E.
      * apply takeExponent_length in E. split; [discriminate|].
        intros v r H. inversion H; subst. lia.
      * split; [discriminate|]; intros; discriminate.
    + split; [discriminate|]. intros v r H. inversion H; subst. lia.
Qed.

Ltac break_in H :=
  repeat match type of H with
         | context [match ?x with _ => _ end] =>
             destruct x eqn:?; try discriminate H
         end.

Ltac shorter :=
  repeat match goal with
         | E : skipSpace _ = _ :: _ |- _ => apply skipSpace_cons_length in E
         | E : parseString _ = Some _ |- _ => apply parseString_length in E
         | E : parseNumber ?s = Got _ _ |- _ =>
             apply (proj2 (parseNumber_length s)) in E
         end;
  cbn [List.length] in *;
  repeat match goal with
         | |- context [match ?l with _ => _ end] =>
             destruct l; cbn [List.length] in *
         end;
  try lia.

Lemma parse_progress (fuel : nat) :
  (forall s v r, parseValue fuel s = Got v r ->
                 (List.length r < List.length s)%nat)
  /\ (forall s l r, parseElements fuel s = Got l r ->
                    (List.length r < List.length s)%nat)
  /\ (forall s l r, parseMembers fuel s = Got l r ->
                    (List.length r < List.length s)%nat).
Proof.
  induction fuel as [|fuel (IHv & IHe & IHm)].
  - repeat split; intros; discriminate.
  - split; [|split].
    + intros s v r H. cbn [parseValue] in H. unfold valueStep in H.
      break_in H; inversion H; subst; clear H;
        repeat match goal with
               | E : parseMembers fuel _ = Got _ _ |- _ => apply IHm in E
               | E : parseElements fuel _ = Got _ _ |- _ => apply IHe in E
               end; shorter.
    + intros s l r H. cbn [parseElements] in H. unfold elementsStep in H.
      break_in H; inversion H; subst; clear H;
        repeat match goal with
               | E : parseValue fuel _ = Got _ _ |- _ => apply IHv in E
               | E : parseElements fuel _ = Got _ _ |- _ => apply IHe in E
               end; shorter.
    + intros s l r H. cbn [parseMembers] in H. unfold membersStep in H.
      break_in H; inversion H; subst; clear H;
        repeat match goal with
               | E : parseValue fuel _ = Got _ _ |- _ => apply IHv in E
               | E : parseMembers fuel _ = Got _ _ |- _ => apply IHm in E
               end; shorter.
Qed.

Ltac consumed :=
  repeat match goal with
         | E : parseValue _ _ = Got _ _ |- _ =>
             apply (proj1 (parse_progress _)) in E
         | E : parseElements _ _ = Got _ _ |- _ =>
             apply (proj1 (proj2 (parse_progress _))) in E
         | E : parseMembers _ _ = Got _ _ |- _ =>
             apply (proj2 (proj2 (parse_progress _))) in E
         end;
  shorter.

(** With fuel for twice the length of the text, the parsers do not run
    out of it. *)
Lemma parse_fuel (fuel : nat) :
  (forall s, (2 * List.length s < fuel)%nat -> parseValue fuel s <> Exhausted)
  /\ (forall s, (2 * List.length s + 1 < fuel)%nat ->
                parseElements fuel s <> Exhausted)
  /\ (forall s, (2 * List.length s + 1 < fuel)%nat ->
                parseMembers fuel s <> Exhausted).
Proof.
  induction fuel as [|fuel (IHv & IHe & IHm)].
  - repeat split; intros; lia.
  - split; [|split]; intros s Hfuel H.
    + cbn [parseValue] in H. unfold valueStep in H.
      break_in H;
        try (apply (proj1 (parseNumber_length _)) in H; exact H);
        match goal with
        | E : parseMembers fuel _ = Exhausted |- _ => apply IHm in E
        | E : parseElements fuel _ = Exhausted |- _ => apply IHe in E
        end; try contradiction; consumed.
    + cbn [parseElements] in H. unfold elementsStep in H.
      break_in H;
        match goal with
        | E : parseElements fuel _ = Exhausted |- _ => apply IHe in E
        | E : parseValue fuel _ = Exhausted |- _ => apply IHv in E
        end; try contradiction; consumed.
    + cbn [parseMembers] in H. unfold membersStep in H.
      break_in H;
        match goal with
        | E : parseMembers fuel _ = Exhausted |- _ => apply IHm in E
        | E : parseValue fuel _ = Exhausted |- _ => apply IHv in E
        end; try contradiction; consumed.
Qed.

(** [JSON_parse] decides every text: it never stops for lack of fuel. *)
Lemma JSON_parse_fuel (text : jsstring) :
  parseValue (2 * List.length text + 2) text <> Exhausted.
Proof. apply (proj1 (parse_fuel _)). lia. Qed.

(** ** [JSON.parse] after [JSON.stringify] *)

Lemma div10_bound (n : N) (f : nat) :
  n < 2 ^ N.of_nat (S f) -> n / 10 < 2 ^ N.of_nat f.
Proof.
  intros H. rewrite Nat2N.inj_succ, N.pow_succ_r' in H.
  pose proof (N.Div0.div_mod n 10) as E.
  pose proof (N.mod_lt n 10) as L.
  remember (n / 10) as q. remember (n mod 10) as r. lia.
Qed.

Lemma isDigit_units (n : N) : isDigit (48 + n mod 10) = true.
Proof.
  pose proof (N.mod_lt n 10 ltac:(lia)) as L.
  unfold isDigit. apply andb_true_iff. rewrite !N.leb_le.
  remember (n mod 10) as r. lia.
Qed.

Lemma digitsAcc_S (f : nat) (n : N) (acc : jsstring) :
  digitsAcc (S f) n acc
  = if n / 10 =? 0 then (48 + n mod 10) :: acc
    else digitsAcc f (n / 10) ((48 + n mod 10) :: acc).
Proof. reflexivity. Qed.

Lemma digitsAcc_spec (f : nat) :
  forall (n : N) (acc : jsstring),
    n < 2 ^ N.of_nat f ->
    exists d ds,
      digitsAcc (S f) n acc = d :: ds ++ acc
      /\ forallb isDigit (d :: ds) = true
      /\ (d = 48 -> n = 0 /\ ds = [])
      /\ forall start, fold_left digitStep (d :: ds) start
                       = start * 10 ^ N.of_nat (List.length (d :: ds)) + n.
Proof.
  induction f as [|f IH]; intros n acc Hn.
  - simpl in Hn. assert (n = 0) by lia. subst n.
    exists 48, []. split; [reflexivity | split; [reflexivity | split]].
    + intros _. split; reflexivity.
    + intros start. cbn [fold_left List.length]. change (N.of_nat 1) with 1.
      rewrite N.pow_1_r. lia.
  - pose proof (N.Div0.div_mod n 10) as E.
    pose proof (N.mod_lt n 10 ltac:(lia)) as L.
    rewrite digitsAcc_S.
    remember (n / 10) as q eqn:Hq. remember (n mod 10) as r eqn:Hr.
    destruct (q =? 0) eqn:Eq.
    + apply N.eqb_eq in Eq. rewrite Eq in E.
      exists (48 + r), []. cbn [app].
      split; [reflexivity | split; [|split]].
      * cbn [forallb]. rewrite Hr, isDigit_units. reflexivity.
      * intros H48. split; [lia | reflexivity].
      * intros start. cbn [fold_left List.length]. change (N.of_nat 1) with 1.
        rewrite N.pow_1_r. lia.
    + apply N.eqb_neq in Eq.
      assert (Hb : q < 2 ^ N.of_nat f)
        by (rewrite Hq; apply div10_bound, Hn).
      destruct (IH q ((48 + r) :: acc) Hb)
        as (d & ds & Hd & Hall & Hzero & Hval).
      exists d, (ds ++ [48 + r]).
      split; [|split; [|split]].
      * rewrite Hd. rewrite <- app_assoc. reflexivity.
      * cbn [forallb] in Hall |- *. apply andb_true_iff in Hall.
        destruct Hall as [H1 H2]. rewrite H1.
        rewrite forallb_app, H2. cbn [forallb].
        rewrite Hr, isDigit_units. reflexivity.
      * intros H48. destruct (Hzero H48) as [H0 _]. congruence.
      * intros start.
        change (d :: ds ++ [48 + r]) with ((d :: ds) ++ [48 + r]).
        rewrite fold_left_app, Hval. cbn [fold_left].
        rewrite length_app. cbn [List.length].
        replace (N.of_nat (S (List.length ds) + 1))
          with (N.succ (N.of_nat (S (List.length ds)))) by lia.
        rewrite N.pow_succ_r'.
        remember (10 ^ N.of_nat (S (List.length ds))) as p. nia.
Qed.

Lemma digitsOf_spec (n : N) :
  exists d ds,
    digitsOf n = d :: ds
    /\ forallb isDigit (d :: ds) = true
    /\ (d = 48 -> ds = [])
    /\ digitsValue (d :: ds) = n.
Proof.
  unfold digitsOf.
  destruct (digitsAcc_spec (N.to_nat (N.size n)) n [])
    as (d & ds & Hd & Hall & Hzero & Hval).
  { rewrite N2Nat.id. apply N.size_gt. }
  exists d, ds. rewrite Hd, app_nil_r. repeat split.
  - exact Hall.
  - intros H. apply Hzero, H.
  - unfold digitsValue. rewrite Hval. lia.
Qed.

(** ** Quoted strings *)

Lemma hexValue_hexDigit (n : N) : n < 16 -> hexValue (hexDigit n) = Some n.
Proof.
  intros H. unfold hexDigit, hexValue.
  destruct (n <? 10) eqn:E.
  - apply N.ltb_lt in E.
    replace ((48 <=? 48 + n) && (48 + n <=? 57)) with true.
    + f_equal. lia.
    + symmetry. apply andb_true_iff. rewrite !N.leb_le. lia.
  - apply N.ltb_ge in E.
    replace ((48 <=? 87 + n) && (87 + n <=? 57)) with false.
    + replace ((97 <=? 87 + n) && (87 + n <=? 102)) with true.
      * f_equal. lia.
      * symmetry. apply andb_true_iff. rewrite !N.leb_le. lia.
    + symmetry. apply andb_false_iff. rewrite !N.leb_gt. lia.
Qed.

Lemma hex4_digits (c : code_unit) :
  c < 65536 ->
  hex4 (hexDigit (c / 4096 mod 16)) (hexDigit (c / 256 mod 16))
       (hexDigit (c / 16 mod 16)) (hexDigit (c mod 16)) = Some c.
Proof.
  intros H. unfold hex4.
  rewrite !hexValue_hexDigit by (apply N.mod_lt; discriminate).
  f_equal. zify. Z.to_euclidean_division_equations. lia.
Qed.

Lemma parseString_raw (c : code_unit) (t : jsstring) :
  c <> 34 -> c <> 92 -> 32 <= c ->
  parseString (c :: t) = consUnit c (parseString t).
Proof.
  intros H1 H2 H3. cbn [parseString].
  apply N.eqb_neq in H1, H2. rewrite H1, H2.
  replace (c <? 32) with false by (symmetry; apply N.ltb_ge; exact H3).
  reflexivity.
Qed.

Lemma parseString_unicodeEscape (c : code_unit) (t : jsstring) :
  c < 65536 ->
  parseString (unicodeEscape c ++ t) = consUnit c (parseString t).
Proof.
  intros H. unfold unicodeEscape. cbn [app parseString].
  change (92 =? 34) with false. change (92 =? 92) with true.
  change (117 =? 117) with true. cbv iota.
  rewrite (hex4_digits c H). reflexivity.
Qed.

Lemma parseString_quoteUnit (c : code_unit) (t : jsstring) :
  parseString (quoteUnit c ++ t) = consUnit c (parseString t).
Proof.
  unfold quoteUnit.
  destruct (c =? 8) eqn:E8; [apply N.eqb_eq in E8; subst; reflexivity|].
  destruct (c =? 9) eqn:E9; [apply N.eqb_eq in E9; subst; reflexivity|].
  destruct (c =? 10) eqn:E10; [apply N.eqb_eq in E10; subst; reflexivity|].
  destruct (c =? 12) eqn:E12; [apply N.eqb_eq in E12; subst; reflexivity|].
  destruct (c =? 13) eqn:E13; [apply N.eqb_eq in E13; subst; reflexivity|].
  destruct (c =? 34) eqn:E34; [apply N.eqb_eq in E34; subst; reflexivity|].
  destruct (c =? 92) eqn:E92; [apply N.eqb_eq in E92; subst; reflexivity|].
  destruct ((c <? 32) || isHighSurrogate c || isLowSurrogate c) eqn:E.
  - apply parseString_unicodeEscape.
    unfold isHighSurrogate, isLowSurrogate in E.
    repeat rewrite orb_true_iff in E. repeat rewrite andb_true_iff in E.
    rewrite N.ltb_lt, !N.leb_le in E. lia.
  - apply orb_false_iff in E. destruct E as [E _].
    apply orb_false_iff in E. destruct E as [E _]. apply N.ltb_ge in E.
    apply N.eqb_neq in E34, E92.
    apply (parseString_raw c t E34 E92 E).
Qed.

Lemma parseString_surrogate (c : code_unit) (t : jsstring) :
  isHighSurrogate c = true \/ isLowSurrogate c = true ->
  parseString (c :: t) = consUnit c (parseString t).
Proof.
  unfold isHighSurrogate, isLowSurrogate. intros H.
  repeat rewrite andb_true_iff in H. rewrite !N.leb_le in H.
  apply parseString_raw; lia.
Qed.

Lemma parseString_quoteUnits_bounded (n : nat) :
  forall (s rest : jsstring),
    (List.length s <= n)%nat ->
    parseString (quoteUnits s ++ 34 :: rest) = Some (s, rest).
Proof.
  induction n as [|n IH]; intros s rest Hlen.
  - destruct s; [reflexivity | simpl in Hlen; lia].
  - destruct s as [|c s]; [reflexivity|].
    simpl in Hlen. cbn [quoteUnits].
    destruct (isHighSurrogate c) eqn:Hc.
    + destruct s as [|d s].
      * rewrite parseString_quoteUnit. reflexivity.
      * destruct (isLowSurrogate d) eqn:Hd.
        -- cbn [app]. rewrite parseString_surrogate by (left; exact Hc).
           rewrite parseString_surrogate by (right; exact Hd).
           rewrite IH by (simpl in Hlen; lia). reflexivity.
        -- rewrite <- app_assoc, parseString_quoteUnit.
           rewrite IH by lia. reflexivity.
    + rewrite <- app_assoc, parseString_quoteUnit.
      rewrite IH by lia. reflexivity.
Qed.

(** Reading back a quoted string gives the string. *)
Lemma parseString_quote (s rest : jsstring) :
  parseString (quoteUnits s ++ 34 :: rest) = Some (s, rest).
Proof. apply (parseString_quoteUnits_bounded (List.length s)). lia. Qed.

(** ** Numbers *)

Lemma takeDigits_app (ds rest : jsstring) :
  forallb isDigit ds = true -> numberEnds rest = true ->
  takeDigits (ds ++ rest) = (ds, rest).
Proof.
  intros Hds Hrest. induction ds as [|d ds IH]; cbn [app].
  - destruct rest as [|c rest]; [reflexivity|]. cbn [takeDigits].
    unfold numberEnds in Hrest. apply negb_true_iff in Hrest.
    repeat (apply orb_false_iff in Hrest; destruct Hrest as [Hrest _]).
    rewrite Hrest. reflexivity.
  - cbn [forallb] in Hds. apply andb_true_iff in Hds.
    destruct Hds as [Hd Hds]. cbn [takeDigits]. rewrite Hd, (IH Hds).
    reflexivity.
Qed.

Lemma parseNumber_digits (n : N) (rest : jsstring) :
  numberEnds rest = true ->
  parseNumber (digitsOf n ++ rest) = Got (JNum (ofN n)) rest.
Proof.
  intros Hrest.
  destruct (digitsOf_spec n) as (d & ds & Hd & Hall & Hzero & Hval).
  unfold parseNumber. rewrite Hd.
  assert (Hdigit : isDigit d = true).
  { cbn [forallb] in Hall. apply andb_true_iff in Hall. tauto. }
  assert (H45 : (d =? 45) = false).
  { unfold isDigit in Hdigit. apply andb_true_iff in Hdigit.
    rewrite !N.leb_le in Hdigit. apply N.eqb_neq. lia. }
  cbn [app]. rewrite H45.
  change (d :: ds ++ rest) with ((d :: ds) ++ rest).
  rewrite (takeDigits_app (d :: ds) rest Hall Hrest).
  assert (Hlead : (d =? 48) && negb (match ds with [] => true | _ => false end)
                  = false).
  { destruct (d =? 48) eqn:E; [|reflexivity].
    apply N.eqb_eq in E. rewrite (Hzero E). reflexivity. }
  rewrite Hlead.
  assert (Hfrac :
    match rest with
    | c :: s' =>
        if c =? 46 then
          match takeDigits s' with
          | ([], _) => None
          | (fracs, s3) => Some (fracs, s3)
          end
        else Some ([], rest)
    | [] => Some ([], rest)
    end = Some ([], rest)).
  { destruct rest as [|c rest']; [reflexivity|].
    unfold numberEnds in Hrest. apply negb_true_iff in Hrest.
    repeat rewrite orb_false_iff in Hrest.
    destruct Hrest as [[[_ H46] _] _]. rewrite H46. reflexivity. }
  rewrite Hfrac. rewrite app_nil_r, Hval.
  destruct rest as [|c rest']; [reflexivity|].
  unfold numberEnds in Hrest. apply negb_true_iff in Hrest.
  repeat rewrite orb_false_iff in Hrest.
  destruct Hrest as [[[_ _] H101] H69]. rewrite H101, H69. reflexivity.
Qed.

(** ** Values *)

Lemma value_ind (P : value -> Prop) :
  P JNull ->
  (forall b, P (JBool b)) ->
  (forall x, P (JNum x)) ->
  (forall s, P (JStr s)) ->
  (forall items, Forall P items -> P (JArr items)) ->
  (forall props, Forall (fun kv => P (snd kv)) props -> P (JObj props)) ->
  forall v, P v.
Proof.
  intros Hnull Hbool Hnum Hstr Harr Hobj.
  fix IH 1. intros [| b | x | s | items | props].
  - exact Hnull.
  - apply Hbool.
  - apply Hnum.
  - apply Hstr.
  - apply Harr. induction items as [|x items IHitems]; constructor.
    + apply IH.
    + exact IHitems.
  - apply Hobj. induction props as [|[k x] props IHprops]; constructor.
    + apply IH.
    + exact IHprops.
Qed.

Lemma ser_array (indent : jsstring) (x : value) (items : list value) :
  ser indent (JArr (x :: items))
  = 91 :: 10 :: (indent ++ gap)
    ++ join (separator (indent ++ gap)) (map (ser (indent ++ gap)) (x :: items))
    ++ 10 :: indent ++ [93].
Proof. cbn [ser]. cbn [js list_ascii_of_string map N_of_ascii app]. reflexivity. Qed.

Lemma ser_object (indent : jsstring) (kv : jsstring * value)
    (props : list (jsstring * value)) :
  ser indent (JObj (kv :: props))
  = 123 :: 10 :: (indent ++ gap)
    ++ join (separator (indent ++ gap))
         (map (memberText (indent ++ gap)) (kv :: props))
    ++ 10 :: indent ++ [125].
Proof. reflexivity. Qed.

Lemma skipSpace_blank (blank t : jsstring) :
  forallb isJsonSpace blank = true -> skipSpace (blank ++ t) = skipSpace t.
Proof.
  induction blank as [|c blank IH]; cbn [app forallb]; [reflexivity|].
  intros H. apply andb_true_iff in H. destruct H as [Hc Hb].
  cbn [skipSpace]. rewrite Hc. apply IH, Hb.
Qed.

Lemma skipSpace_start (c : code_unit) (t : jsstring) :
  isJsonSpace c = false -> skipSpace (c :: t) = c :: t.
Proof. intros H. cbn [skipSpace]. rewrite H. reflexivity. Qed.

Lemma isDigit_startsValue (d : code_unit) :
  isDigit d = true -> startsValue d = true.
Proof.
  unfold isDigit, startsValue, isJsonSpace. intros H.
  apply andb_true_iff in H. rewrite !N.leb_le in H.
  apply negb_true_iff. repeat rewrite orb_false_iff.
  repeat split; apply N.eqb_neq; lia.
Qed.

(** Every serialized value starts with a code unit that starts a value. *)
Lemma ser_starts (indent : jsstring) (v : value) :
  exists c t, ser indent v = c :: t /\ startsValue c = true.
Proof.
  destruct v as [| [|] | x | s | [|x items] | [|kv props]];
    try (eexists; eexists; split; reflexivity).
  cbn [ser]. unfold serNumber.
  destruct x as [| negative | d];
    try (eexists; eexists; split; reflexivity).
  destruct (isFinite (Dec d)); [|eexists; eexists; split; reflexivity].
  destruct (neg d && negb (roundsToZero d));
    [eexists; eexists; split; reflexivity|].
  destruct (digitsOf_spec (mant d)) as (c & ds & Hd & Hall & _ & _).
  rewrite Hd. cbn [app]. eexists; eexists; split; [reflexivity|].
  cbn [forallb] in Hall. apply andb_true_iff in Hall.
  apply isDigit_startsValue. tauto.
Qed.

Lemma startsValue_tests (c : code_unit) :
  startsValue c = true ->
  isJsonSpace c = false /\ (c =? 93) = false /\ (c =? 125) = false.
Proof.
  unfold startsValue. intros H. apply negb_true_iff in H.
  repeat rewrite orb_false_iff in H. tauto.
Qed.

(** Skipping the white space in front of a serialized value stops at
    the value. *)
Lemma skipSpace_ser (blank indent : jsstring) (v : value) (rest : jsstring) :
  forallb isJsonSpace blank = true ->
  skipSpace (blank ++ ser indent v ++ rest) = ser indent v ++ rest.
Proof.
  intros H. rewrite (skipSpace_blank blank _ H).
  destruct (ser_starts indent v) as (c & t & -> & Hc).
  apply skipSpace_start. apply startsValue_tests in Hc. tauto.
Qed.

Lemma parseValue_S (fuel : nat) (s : jsstring) :
  parseValue (S fuel) s = valueStep (parseMembers fuel) (parseElements fuel) s.
Proof. reflexivity. Qed.

Lemma parseElements_S (fuel : nat) (s : jsstring) :
  parseElements (S fuel) s
  = elementsStep (parseValue fuel) (parseElements fuel) s.
Proof. reflexivity. Qed.

Lemma parseMembers_S (fuel : nat) (s : jsstring) :
  parseMembers (S fuel) s
  = membersStep (parseValue fuel) (parseMembers fuel) s.
Proof. reflexivity. Qed.

Lemma join_cons2 (sep a b : jsstring) (l : list jsstring) :
  join sep (a :: b :: l) = a ++ sep ++ join sep (b :: l).
Proof. reflexivity. Qed.

Ltac lengths :=
  repeat (progress (repeat rewrite length_app in *;
                    cbn [List.length app] in *));
  lia.

Lemma elementsText_one (inner indent : jsstring) (x : value) (rest : jsstring) :
  elementsText inner indent [x] rest
  = ser inner x ++ 10 :: indent ++ 93 :: rest.
Proof. reflexivity. Qed.

Lemma elementsText_more (inner indent : jsstring) (x y : value)
    (items : list value) (rest : jsstring) :
  elementsText inner indent (x :: y :: items) rest
  = ser inner x ++ 44 :: (10 :: inner) ++ elementsText inner indent (y :: items) rest.
Proof.
  unfold elementsText. cbn [map]. rewrite join_cons2.
  unfold separator. rewrite <- !app_assoc. reflexivity.
Qed.

(** The elements of a serialized array, read back. *)
Lemma parseElements_ser (inner indent rest : jsstring) :
  forallb isJsonSpace inner = true ->
  forallb isJsonSpace indent = true ->
  forall (items : list value) (x : value) (blank : jsstring) (fuel : nat),
    Forall roundTrips (x :: items) ->
    forallb isJsonSpace blank = true ->
    (2 * List.length (blank ++ elementsText inner indent (x :: items) rest) + 1
     < fuel)%nat ->
    parseElements fuel (blank ++ elementsText inner indent (x :: items) rest)
    = Got (x :: items) rest.
Proof.
  intros Hinner Hindent.
  induction items as [|y items IH]; intros x blank fuel Hall Hblank Hfuel;
    (destruct fuel as [|fuel]; [lia|]);
    rewrite parseElements_S; unfold elementsStep;
    inversion Hall as [|? ? Hx Hrest]; subst.
  - rewrite elementsText_one in *.
    rewrite (Hx blank inner (10 :: indent ++ 93 :: rest) fuel Hblank Hinner
               eq_refl) by lengths.
    change (10 :: indent ++ 93 :: rest) with ([10] ++ indent ++ 93 :: rest).
    rewrite (skipSpace_blank [10] _ eq_refl), (skipSpace_blank indent _ Hindent).
    reflexivity.
  - rewrite elementsText_more in *.
    rewrite (Hx blank inner
               (44 :: (10 :: inner)
                ++ elementsText inner indent (y :: items) rest)
               fuel Hblank Hinner eq_refl) by lengths.
    rewrite skipSpace_start by reflexivity.
    change (44 =? 44) with true. cbv iota.
    rewrite (IH y (10 :: inner) fuel Hrest).
    + reflexivity.
    + cbn [forallb]. rewrite Hinner. reflexivity.
    + lengths.
Qed.

Lemma membersText_one (inner indent k : jsstring) (x : value)
    (rest : jsstring) :
  membersText inner indent [(k, x)] rest
  = 34 :: quoteUnits k
    ++ 34 :: 58 :: [32] ++ ser inner x ++ 10 :: indent ++ 125 :: rest.
Proof.
  unfold membersText, memberText, quote. cbn [map join].
  cbn [js list_ascii_of_string map N_of_ascii app].
  rewrite <- !app_assoc. reflexivity.
Qed.

Lemma membersText_more (inner indent k : jsstring) (x : value)
    (kv : jsstring * value) (props : list (jsstring * value))
    (rest : jsstring) :
  membersText inner indent ((k, x) :: kv :: props) rest
  = 34 :: quoteUnits k
    ++ 34 :: 58 :: [32] ++ ser inner x
    ++ 44 :: (10 :: inner) ++ membersText inner indent (kv :: props) rest.
Proof.
  unfold membersText. cbn [map]. rewrite join_cons2.
  unfold separator, memberText at 1, quote.
  cbn [js list_ascii_of_string map N_of_ascii app].
  rewrite <- !app_assoc. cbn [app]. rewrite <- !app_assoc. reflexivity.
Qed.

(** The members of a serialized object, read back. *)
Lemma parseMembers_ser (inner indent rest : jsstring) :
  forallb isJsonSpace inner = true ->
  forallb isJsonSpace indent = true ->
  forall (props : list (jsstring * value)) (kv : jsstring * value)
         (blank : jsstring) (fuel : nat),
    Forall (fun kv => roundTrips (snd kv)) (kv :: props) ->
    forallb isJsonSpace blank = true ->
    (2 * List.length (blank ++ membersText inner indent (kv :: props) rest) + 1
     < fuel)%nat ->
    parseMembers fuel (blank ++ membersText inner indent (kv :: props) rest)
    = Got (kv :: props) rest.
Proof.
  intros Hinner Hindent.
  induction props as [|kv' props IH]; intros [k x] blank fuel Hall Hblank Hfuel;
    (destruct fuel as [|fuel]; [lia|]);
    rewrite parseMembers_S; unfold membersStep;
    inversion Hall as [|? ? Hx Hrest]; subst; cbn [snd] in Hx.
  - rewrite membersText_one in *.
    rewrite (skipSpace_blank blank _ Hblank), skipSpace_start by reflexivity.
    change (34 =? 34) with true. cbv iota.
    rewrite parseString_quote.
    rewrite skipSpace_start by reflexivity.
    change (58 =? 58) with true. cbv iota.
    rewrite (Hx [32] inner (10 :: indent ++ 125 :: rest) fuel eq_refl Hinner
               eq_refl) by lengths.
    change (10 :: indent ++ 125 :: rest) with ([10] ++ indent ++ 125 :: rest).
    rewrite (skipSpace_blank [10] _ eq_refl), (skipSpace_blank indent _ Hindent).
    reflexivity.
  - rewrite membersText_more in *.
    rewrite (skipSpace_blank blank _ Hblank), skipSpace_start by reflexivity.
    change (34 =? 34) with true. cbv iota.
    rewrite parseString_quote.
    rewrite skipSpace_start by reflexivity.
    change (58 =? 58) with true. cbv iota.
    rewrite (Hx [32] inner
               (44 :: (10 :: inner)
                ++ membersText inner indent (kv' :: props) rest)
               fuel eq_refl Hinner eq_refl) by lengths.
    rewrite skipSpace_start by reflexivity.
    change (44 =? 44) with true. cbv iota.
    rewrite (IH kv' (10 :: inner) fuel Hrest).
    + reflexivity.
    + cbn [forallb]. rewrite Hinner. reflexivity.
    + lengths.
Qed.

Lemma ser_array_text (indent : jsstring) (x : value) (items : list value)
    (rest : jsstring) :
  ser indent (JArr (x :: items)) ++ rest
  = 91 :: (10 :: indent ++ gap)
    ++ elementsText (indent ++ gap) indent (x :: items) rest.
Proof.
  rewrite ser_array. unfold elementsText. cbn [app].
  rewrite <- !app_assoc. cbn [app]. rewrite <- !app_assoc. reflexivity.
Qed.

Lemma ser_object_text (indent : jsstring) (kv : jsstring * value)
    (props : list (jsstring * value)) (rest : jsstring) :
  ser indent (JObj (kv :: props)) ++ rest
  = 123 :: (10 :: indent ++ gap)
    ++ membersText (indent ++ gap) indent (kv :: props) rest.
Proof.
  rewrite ser_object. unfold membersText. cbn [app].
  rewrite <- !app_assoc. cbn [app]. rewrite <- !app_assoc. reflexivity.
Qed.

Lemma elementsText_starts (inner indent : jsstring) (x : value)
    (items : list value) (rest : jsstring) :
  exists c t, elementsText inner indent (x :: items) rest = c :: t
              /\ startsValue c = true.
Proof.
  destruct (ser_starts inner x) as (c & t & Hc & Hs).
  destruct items as [|y items].
  - rewrite elementsText_one, Hc. eexists; eexists; split; [reflexivity|].
    exact Hs.
  - rewrite elementsText_more, Hc. eexists; eexists; split; [reflexivity|].
    exact Hs.
Qed.

Lemma membersText_starts (inner indent : jsstring) (kv : jsstring * value)
    (props : list (jsstring * value)) (rest : jsstring) :
  exists t, membersText inner indent (kv :: props) rest = 34 :: t.
Proof.
  destruct kv as [k x]. destruct props as [|kv' props].
  - rewrite membersText_one. eexists; reflexivity.
  - rewrite membersText_more. eexists; reflexivity.
Qed.

Lemma gap_blank (indent : jsstring) :
  forallb isJsonSpace indent = true ->
  forallb isJsonSpace (indent ++ gap) = true.
Proof. intros H. rewrite forallb_app, H. reflexivity. Qed.

(** A safe value, serialized at any indentation and followed by any
    text that does not continue a number, is read back as it was. *)
Lemma safe_roundTrips (v : value) : safe v = true -> roundTrips v.
Proof.
  induction v as [| b | x | s | items IH | props IH] using value_ind;
    intros Hsafe blank indent rest fuel Hblank Hindent Hrest Hfuel;
    (destruct fuel as [|fuel]; [lia|]); rewrite parseValue_S;
    unfold valueStep.
  - rewrite skipSpace_ser by exact Hblank. reflexivity.
  - rewrite skipSpace_ser by exact Hblank. destruct b; reflexivity.
  - rewrite skipSpace_ser by exact Hblank.
    cbn [safe] in Hsafe. destruct x as [| | d]; try discriminate.
    apply andb_true_iff in Hsafe. destruct Hsafe as [Hsafe Hfin].
    apply andb_true_iff in Hsafe. destruct Hsafe as [Hneg Hexp].
    apply negb_true_iff in Hneg. apply Z.eqb_eq in Hexp.
    cbn [ser]. unfold serNumber. rewrite Hfin, Hneg, Hexp.
    cbn [andb app Z.eqb]. rewrite app_nil_r.
    assert (Hd : Dec d = ofN (mant d)).
    { destruct d as [n m e]. cbn in *. subst. reflexivity. }
    rewrite Hd. rewrite <- (parseNumber_digits (mant d) rest Hrest).
    destruct (digitsOf_spec (mant d)) as (c & ds & Hc & Hall & _ & _).
    rewrite Hc. cbn [app].
    cbn [forallb] in Hall. apply andb_true_iff in Hall.
    destruct Hall as [Hdigit _]. unfold isDigit in Hdigit.
    apply andb_true_iff in Hdigit. rewrite !N.leb_le in Hdigit.
    replace (c =? 123) with false by (symmetry; apply N.eqb_neq; lia).
    replace (c =? 91) with false by (symmetry; apply N.eqb_neq; lia).
    replace (c =? 34) with false by (symmetry; apply N.eqb_neq; lia).
    change (js "true") with [116; 114; 117; 101].
    change (js "false") with [102; 97; 108; 115; 101].
    change (js "null") with [110; 117; 108; 108].
    cbn [startsWith].
    replace (c =? 116) with false by (symmetry; apply N.eqb_neq; lia).
    replace (c =? 102) with false by (symmetry; apply N.eqb_neq; lia).
    replace (c =? 110) with false by (symmetry; apply N.eqb_neq; lia).
    reflexivity.
  - rewrite skipSpace_ser by exact Hblank.
    cbn [ser]. unfold quote. cbn [app].
    change (34 =? 123) with false. change (34 =? 91) with false.
    change (34 =? 34) with true. cbv iota.
    rewrite <- app_assoc. cbn [app]. rewrite parseString_quote. reflexivity.
  - rewrite skipSpace_ser by exact Hblank.
    destruct items as [|x items]; [reflexivity|].
    rewrite ser_array_text in *.
    change (91 =? 123) with false. change (91 =? 91) with true. cbv iota.
    rewrite (skipSpace_blank (10 :: indent ++ gap))
      by (cbn [forallb]; rewrite gap_blank by exact Hindent; reflexivity).
    destruct (elementsText_starts (indent ++ gap) indent x items rest)
      as (c & t & Hc & Hs).
    apply startsValue_tests in Hs. destruct Hs as (Hs1 & Hs2 & Hs3).
    rewrite Hc at 1. rewrite skipSpace_start by exact Hs1. rewrite Hs2.
    rewrite (parseElements_ser (indent ++ gap) indent rest
               (gap_blank indent Hindent) Hindent items x).
    + reflexivity.
    + cbn [safe] in Hsafe. apply forallb_forall with (x := x) in Hsafe as Hx.
      * rewrite Forall_forall in IH |- *. intros y Hy. apply IH; [exact Hy|].
        rewrite forallb_forall in Hsafe. apply Hsafe, Hy.
      * left; reflexivity.
    + cbn [forallb]. rewrite gap_blank by exact Hindent. reflexivity.
    + lengths.
  - rewrite skipSpace_ser by exact Hblank.
    destruct props as [|kv props]; [reflexivity|].
    rewrite ser_object_text in *.
    change (123 =? 123) with true. cbv iota.
    rewrite (skipSpace_blank (10 :: indent ++ gap))
      by (cbn [forallb]; rewrite gap_blank by exact Hindent; reflexivity).
    destruct (membersText_starts (indent ++ gap) indent kv props rest)
      as (t & Ht).
    rewrite Ht at 1. rewrite skipSpace_start by reflexivity.
    change (34 =? 125) with false. cbv iota.
    rewrite (parseMembers_ser (indent ++ gap) indent rest
               (gap_blank indent Hindent) Hindent props kv).
    + reflexivity.
    + cbn [safe] in Hsafe.
      rewrite Forall_forall in IH |- *. intros [k y] Hy. cbn [snd].
      apply (IH (k, y) Hy).
      rewrite forallb_forall in Hsafe. apply (Hsafe (k, y) Hy).
    + cbn [forallb]. rewrite gap_blank by exact Hindent. reflexivity.
    + lengths.
Qed.

(** [JSON.parse] inverts [JSON.stringify] on safe values. *)
Lemma JSON_parse_stringify (v : value) :
  safe v = true -> JSON_parse (JSON_stringify v) = inl v.
Proof.
  intros H. unfold JSON_parse, JSON_stringify.
  pose proof (safe_roundTrips v H [] [] []
                (2 * List.length (ser [] v) + 2)%nat eq_refl eq_refl eq_refl)
    as E.
  cbn [app] in E. rewrite app_nil_r in E. rewrite E by lia. reflexivity.
Qed.

(** ** PolicyModel: the builder, and the parser on what it builds *)

Lemma ruleValue_kept (r : ResourceRule) :
  plainRule r = true ->
  isResourceRule (ruleValue r) = true
  /\ toResourceRule (ruleValue r) = r
  /\ safe (ruleValue r) = true.
Proof.
  destruct r as [v s a [m|]]; unfold plainRule, ruleValue;
    cbn [modifiers verb selector allowed].
  - intros H. apply andb_true_iff in H. destruct H as [Ht Hs].
    rewrite Ht. cbn [optionalProp app]. repeat split.
    cbn [safe forallb]. rewrite Hs. reflexivity.
  - intros _. repeat split.
Qed.

Lemma guidelineValue_kept (g : ActionGuideline) :
  match exceptions g with Some e => safe e | None => true end = true ->
  isActionGuideline (guidelineValue g) = true
  /\ toActionGuideline (guidelineValue g) = g
  /\ safe (guidelineValue g) = true.
Proof.
  destruct g as [d t [e|]]; unfold guidelineValue;
    cbn [directive description exceptions optionalProp app].
  - intros Hs. repeat split. cbn [safe forallb]. rewrite Hs. reflexivity.
  - intros _. repeat split.
Qed.

Lemma kept_entries {A : Type} (toValue : A -> value) (keep : value -> bool)
    (back : value -> A) (l : list A) :
  Forall (fun a => keep (toValue a) = true /\ back (toValue a) = a
                   /\ safe (toValue a) = true) l ->
  map back (filter keep (map toValue l)) = l
  /\ forallb safe (map toValue l) = true.
Proof.
  induction 1 as [|a l (Hk & Hb & Hs) _ [IH1 IH2]]; [split; reflexivity|].
  cbn [map filter forallb]. rewrite Hk, Hs. cbn [map].
  rewrite Hb, IH1, IH2. split; reflexivity.
Qed.

Lemma quickRules_plain (state : QuickBuilderState) :
  Forall (fun r => plainRule r = true) (quickRules state).
Proof.
  unfold quickRules.
  destruct (allowNavigation state), (rateLimit state), (allowForms state),
    (requireHumanForForms state);
    repeat constructor.
Qed.

Lemma quickGuidelines_plain (state : QuickBuilderState) :
  Forall (fun g => match exceptions g with Some e => safe e | None => true end
                   = true)
    (quickGuidelines state).
Proof.
  unfold quickGuidelines, guidelineSlots.
  destruct (blockLogin state), (allowForms state), (rateLimit state);
    repeat constructor.
Qed.

Lemma policyValue_safe (now : jsstring) (state : QuickBuilderState) :
  safe (policyValue now state) = true.
Proof.
  unfold policyValue. cbn [safe forallb].
  destruct (kept_entries ruleValue isResourceRule toResourceRule
              (quickRules state)) as [_ ->].
  { eapply Forall_impl; [|apply quickRules_plain].
    intros r. apply ruleValue_kept. }
  destruct (kept_entries guidelineValue isActionGuideline toActionGuideline
              (quickGuidelines state)) as [_ ->].
  { eapply Forall_impl; [|apply quickGuidelines_plain].
    intros g. apply guidelineValue_kept. }
  unfold quickMetadata. destruct (trim (siteName state)); reflexivity.
Qed.

Lemma ser_object_not_blank (kv : jsstring * value)
    (props : list (jsstring * value)) :
  trim (JSON_stringify (JObj (kv :: props))) <> [].
Proof.
  intros H. apply trim_blank in H. unfold JSON_stringify in H.
  rewrite ser_object in H. discriminate.
Qed.

(** What the parser makes of the document the builder writes. *)
Lemma parsePolicy_buildQuickPolicy (now : jsstring)
    (state : QuickBuilderState) :
  parsePolicy (buildQuickPolicy now state)
  = mkParsedPolicy None (Some (quickMetadata now state))
      (quickRules state) (quickGuidelines state).
Proof.
  unfold buildQuickPolicy.
  rewrite (parsePolicy_decoded _ (policyValue now state)
             (JSON_parse_stringify _ (policyValue_safe now state))).
  unfold policyValue.
  change (getProp (JObj ?p) ?k) with (lookup k p).
  destruct (kept_entries ruleValue isResourceRule toResourceRule
              (quickRules state)) as [Hr _].
  { eapply Forall_impl; [|apply quickRules_plain].
    intros r. apply ruleValue_kept. }
  destruct (kept_entries guidelineValue isActionGuideline toActionGuideline
              (quickGuidelines state)) as [Hg _].
  { eapply Forall_impl; [|apply quickGuidelines_plain].
    intros g. apply guidelineValue_kept. }
  f_equal.
  - exact Hr.
  - exact Hg.
Qed.

(** C3. For every configuration and every time stamp, the document
    that [buildQuickPolicy] writes decodes, [parsePolicy] reports no
    error on it, and the rules and the guidelines of the result are
    exactly the ones the builder emitted. *)
Theorem build_then_parse_recovers (now : jsstring)
    (state : QuickBuilderState) :
  JSON_parse (buildQuickPolicy now state) = inl (policyValue now state)
  /\ error (parsePolicy (buildQuickPolicy now state)) = None
  /\ resourceRules (parsePolicy (buildQuickPolicy now state))
     = quickRules state
  /\ actionGuidelines (parsePolicy (buildQuickPolicy now state))
     = quickGuidelines state.
Proof.
  rewrite parsePolicy_buildQuickPolicy. repeat split.
  apply JSON_parse_stringify, policyValue_safe.
Qed.

(** C6. Whatever the configuration, the document that
    [buildQuickPolicy] writes carries a rule for [execute_script] and a
    rule for [upload_file], and every rule it carries for either verb
    has [allowed] false. *)
Theorem script_and_upload_always_blocked (now : jsstring)
    (state : QuickBuilderState) :
  let rules := resourceRules (parsePolicy (buildQuickPolicy now state)) in
  In (mkResourceRule (js "execute_script") (js "*") false None) rules
  /\ In (mkResourceRule (js "upload_file") (js "input[type='file']") false
           None) rules
  /\ forall r, In r rules ->
       verb r = js "execute_script" \/ verb r = js "upload_file" ->
       allowed r = false.
Proof.
  cbv zeta. rewrite parsePolicy_buildQuickPolicy. cbn [resourceRules].
  unfold quickRules. split; [|split].
  - do 5 right. left. reflexivity.
  - do 6 right. left. reflexivity.
  - intros r Hin Hverb. cbn [In] in Hin.
    repeat (destruct Hin as [<- | Hin]; [cbn [verb allowed] in *|]);
      try reflexivity; try contradiction;
      destruct Hverb as [Hverb | Hverb]; vm_compute in Hverb; discriminate.
Qed.

(** The theorem on a configuration with every restriction switched on. *)
Lemma script_and_upload_always_blocked_witness :
  In (mkResourceRule (js "execute_script") (js "*") false None)
     (resourceRules
        (parsePolicy (buildQuickPolicy Samples.isoNow Samples.strictState)))
  /\ allowed (mkResourceRule (js "execute_script") (js "*") false None)
     = false.
Proof.
  pose proof (script_and_upload_always_blocked Samples.isoNow
                Samples.strictState) as H.
  cbv zeta in H. destruct H as (Hscript & _ & Hall).
  split; [exact Hscript|].
  apply Hall; [exact Hscript | left; reflexivity].
Defined.

(** ** RuleStore and PathMatcher: further properties *)

Lemma trimStart_suffix (s : jsstring) :
  exists blank, s = blank ++ trimStart s.
Proof.
  induction s as [|c s [blank IH]]; [exists []; reflexivity|].
  cbn [trimStart]. destruct (isWhiteSpace c).
  - exists (c :: blank). cbn [app]. rewrite <- IH. reflexivity.
  - exists []. reflexivity.
Qed.

Lemma trimStart_fixed (c : code_unit) (r : jsstring) :
  isWhiteSpace c = false -> trimStart (c :: r) = c :: r.
Proof. intros H. cbn [trimStart]. rewrite H. reflexivity. Qed.

(** What [trim] returns is empty, or starts and ends with a code unit
    that is not white space. *)
Lemma trim_shape (s : jsstring) :
  trim s = []
  \/ exists c middle d,
       isWhiteSpace c = false /\ isWhiteSpace d = false
       /\ rev (trim s) = d :: middle /\ exists tail, trim s = c :: tail.
Proof.
  unfold trim, trimEnd.
  destruct (trimStart s) as [|c t] eqn:Et; [left; reflexivity|].
  pose proof (trimStart_head s c t Et) as Hc.
  destruct (trimStart (rev (c :: t))) as [|d u] eqn:Eu; [left; reflexivity|].
  right. pose proof (trimStart_head _ d u Eu) as Hd.
  destruct (trimStart_suffix (rev (c :: t))) as [blank Hb]. rewrite Eu in Hb.
  exists c, u, d. repeat split; try assumption.
  - apply rev_involutive.
  - apply (f_equal (@rev code_unit)) in Hb.
    rewrite rev_involutive, rev_app_distr in Hb.
    destruct (rev (d :: u)) as [|x tail] eqn:Er.
    + apply (f_equal (@rev code_unit)) in Er.
      rewrite rev_involutive in Er. discriminate.
    + cbn [app] in Hb. inversion Hb; subst. exists tail; reflexivity.
Qed.

Lemma trim_idempotent (s : jsstring) : trim (trim s) = trim s.
Proof.
  destruct (trim_shape s) as [-> | (c & middle & d & Hc & Hd & Hrev & tail & Ht)];
    [reflexivity|].
  unfold trim at 1. unfold trimEnd. rewrite Ht at 1.
  rewrite (trimStart_fixed c tail Hc), <- Ht, Hrev.
  rewrite (trimStart_fixed d middle Hd), <- Hrev. apply rev_involutive.
Qed.

Lemma readDirective_value (toLowerCase : jsstring -> jsstring)
    (line key value : jsstring) :
  readDirective toLowerCase line = Some (key, value) ->
  trim value = value.
Proof.
  unfold readDirective. destruct (trim line); [discriminate|].
  destruct (startsWith _ _); [discriminate|].
  destruct (split 58 _) as [|rawKey rest]; [discriminate|].
  destruct rawKey; [discriminate|]. destruct rest; [discriminate|].
  intros H. inversion H; subst. apply trim_idempotent.
Qed.

Lemma parseLine_clean (toLowerCase : jsstring -> jsstring)
    (st : bool * RobotsRules) (line : jsstring) :
  entriesClean (snd st) -> entriesClean (snd (parseLine toLowerCase st line)).
Proof.
  destruct st as [applies rules]. unfold parseLine. cbn [snd].
  intros [Hd Ha].
  destruct (readDirective toLowerCase line) as [[key value]|] eqn:E;
    [|split; assumption].
  apply readDirective_value in E.
  destruct (eqb key (js "user-agent")); [split; assumption|].
  destruct applies; cbn [negb]; [|split; assumption].
  destruct (eqb key (js "disallow")).
  { destruct value as [|c v]; [split; assumption|].
    split; cbn [snd disallow allow]; [|assumption].
    apply Forall_app. split; [assumption|].
    constructor; [|constructor]. split; [discriminate | exact E]. }
  destruct (eqb key (js "allow")).
  { destruct value as [|c v]; [split; assumption|].
    split; cbn [snd disallow allow]; [assumption|].
    apply Forall_app. split; [assumption|].
    constructor; [|constructor]. split; [discriminate | exact E]. }
  destruct (eqb key (js "crawl-delay")); [|split; assumption].
  destruct (isFinite (parseFloat value)); split; assumption.
Qed.

Lemma parseLines_clean (toLowerCase : jsstring -> jsstring)
    (lines : list jsstring) (st : bool * RobotsRules) :
  entriesClean (snd st) ->
  entriesClean (snd (fold_left (parseLine toLowerCase) lines st)).
Proof.
  revert st; induction lines as [|line lines IH]; intros st H;
    cbn [fold_left]; [exact H|].
  apply IH, parseLine_clean, H.
Qed.

(** X1. Every entry of the two lists that [parseRobots] returns is a
    non-empty string without white space at either end: a directive
    with an empty value is not stored, and values are stored trimmed. *)
Theorem parseRobots_entries_clean (toLowerCase : jsstring -> jsstring)
    (content : jsstring) :
  Forall isCleanEntry (disallow (parseRobots toLowerCase content))
  /\ Forall isCleanEntry (allow (parseRobots toLowerCase content)).
Proof.
  apply (parseLines_clean toLowerCase (splitLines content) (false, emptyRules)).
  split; constructor.
Qed.

Lemma trimStart_app (l m : jsstring) :
  trimStart (l ++ m)
  = match trimStart l with
    | [] => trimStart m
    | t => t ++ m
    end.
Proof.
  induction l as [|c l IH]; cbn [app trimStart].
  - destruct (trimStart m); reflexivity.
  - destruct (isWhiteSpace c); [exact IH | reflexivity].
Qed.

(** White space at the end of a line does not show after [trim]. *)
Lemma trim_app_blank (l : jsstring) (c : code_unit) :
  isWhiteSpace c = true -> trim (l ++ [c]) = trim l.
Proof.
  intros H. unfold trim, trimEnd. rewrite trimStart_app.
  destruct (trimStart l) as [|d t] eqn:E.
  - cbn [trimStart]. rewrite H. reflexivity.
  - rewrite rev_app_distr. cbn [rev app]. cbn [trimStart]. rewrite H.
    reflexivity.
Qed.

Lemma sameLine_trim (a b : jsstring) : sameLine a b -> trim a = trim b.
Proof.
  intros [-> | ->]; [reflexivity|]. symmetry. apply trim_app_blank.
  reflexivity.
Qed.

Lemma parseLine_sameLine (toLowerCase : jsstring -> jsstring)
    (st : bool * RobotsRules) (a b : jsstring) :
  sameLine a b -> parseLine toLowerCase st a = parseLine toLowerCase st b.
Proof.
  intros H. apply sameLine_trim in H. unfold parseLine, readDirective.
  rewrite H. reflexivity.
Qed.

Lemma parseLines_sameLine (toLowerCase : jsstring -> jsstring)
    (l1 l2 : list jsstring) :
  Forall2 sameLine l1 l2 ->
  forall st, fold_left (parseLine toLowerCase) l1 st
             = fold_left (parseLine toLowerCase) l2 st.
Proof.
  induction 1 as [|a b l1 l2 Hab _ IH]; intros st; cbn [fold_left];
    [reflexivity|].
  rewrite (parseLine_sameLine toLowerCase st a b Hab). apply IH.
Qed.

Lemma splitLines_cons (s : jsstring) : exists l ls, splitLines s = l :: ls.
Proof.
  destruct s as [|c s]; [eexists; eexists; reflexivity|].
  cbn [splitLines]. destruct (c =? 10); [eexists; eexists; reflexivity|].
  destruct (splitLines s) as [|l ls];
    (destruct (c =? 13); [destruct s as [|d s']; [|destruct (d =? 10)]|]);
    eexists; eexists; reflexivity.
Qed.

(** The lines of a text that goes on after a line feed: the lines of
    the text before it, the last one possibly without its carriage
    return, then the lines of the text after it. *)
Lemma splitLines_app_bounded (n : nat) :
  forall (before after : jsstring),
    (List.length before <= n)%nat ->
    exists lines,
      splitLines (before ++ 10 :: after) = lines ++ splitLines after
      /\ Forall2 sameLine lines (splitLines before).
Proof.
  induction n as [|n IH]; intros before after Hlen.
  - destruct before; [|cbn [List.length] in Hlen; lia].
    exists [[]]. split; [reflexivity|]. repeat constructor.
  - destruct before as [|c r].
    { exists [[]]. split; [reflexivity|]. repeat constructor. }
    cbn [List.length] in Hlen.
    assert (Hkeep :
      exists lines,
        match splitLines (r ++ 10 :: after) with
        | l :: ls => (c :: l) :: ls
        | [] => [[c]]
        end = lines ++ splitLines after
        /\ Forall2 sameLine lines
             match splitLines r with
             | l :: ls => (c :: l) :: ls
             | [] => [[c]]
             end).
    { destruct (IH r after ltac:(lia)) as (lines & E & H2).
      rewrite E. destruct (splitLines_cons r) as (l0 & ls0 & E0).
      rewrite E0 in *. inversion H2 as [|a b la lb Hab Hrest]; subst.
      exists ((c :: a) :: la). split; [reflexivity|].
      constructor; [|exact Hrest].
      destruct Hab as [-> | ->]; [left | right]; reflexivity. }
    cbn [app splitLines]. destruct (c =? 10) eqn:E10.
    + destruct (IH r after ltac:(lia)) as (lines & E & H2).
      exists ([] :: lines). rewrite E. split; [reflexivity|].
      constructor; [left; reflexivity | exact H2].
    + destruct (c =? 13) eqn:E13; [|exact Hkeep].
      destruct r as [|d r'].
      * cbn [app]. change (10 =? 10) with true. cbv iota.
        apply N.eqb_eq in E13. subst c.
        exists [[]]. split; [reflexivity|].
        constructor; [right; reflexivity | constructor].
      * cbn [app]. destruct (d =? 10) eqn:Ed; [|exact Hkeep].
        cbn [List.length] in Hlen.
        destruct (IH r' after ltac:(lia)) as (lines & E & H2).
        exists ([] :: lines). rewrite E. split; [reflexivity|].
        constructor; [left; reflexivity | exact H2].
Qed.

Lemma parseLine_extends (toLowerCase : jsstring -> jsstring)
    (st : bool * RobotsRules) (line : jsstring) :
  extendsRules (snd st) (snd (parseLine toLowerCase st line)).
Proof.
  assert (Hsame : forall r, extendsRules r r).
  { intros r. split; exists []; symmetry; apply app_nil_r. }
  destruct st as [applies rules]. unfold parseLine. cbn [snd].
  destruct (readDirective toLowerCase line) as [[key value]|]; [|apply Hsame].
  destruct (eqb key (js "user-agent")); [apply Hsame|].
  destruct applies; cbn [negb]; [|apply Hsame].
  destruct (eqb key (js "disallow")).
  { destruct value; [apply Hsame|]. split; cbn [snd disallow allow].
    - eexists; reflexivity.
    - exists []. symmetry. apply app_nil_r. }
  destruct (eqb key (js "allow")).
  { destruct value; [apply Hsame|]. split; cbn [snd disallow allow].
    - exists []. symmetry. apply app_nil_r.
    - eexists; reflexivity. }
  destruct (eqb key (js "crawl-delay")); [|apply Hsame].
  destruct (isFinite (parseFloat value)); [|apply Hsame].
  split; cbn [snd disallow allow]; exists []; symmetry; apply app_nil_r.
Qed.

Lemma extendsRules_trans (a b c : RobotsRules) :
  extendsRules a b -> extendsRules b c -> extendsRules a c.
Proof.
  intros [[d1 Hd1] [a1 Ha1]] [[d2 Hd2] [a2 Ha2]]. split.
  - exists (d1 ++ d2). rewrite Hd2, Hd1. symmetry. apply app_assoc.
  - exists (a1 ++ a2). rewrite Ha2, Ha1. symmetry. apply app_assoc.
Qed.

Lemma parseLines_extends (toLowerCase : jsstring -> jsstring)
    (lines : list jsstring) (st : bool * RobotsRules) :
  extendsRules (snd st) (snd (fold_left (parseLine toLowerCase) lines st)).
Proof.
  revert st; induction lines as [|line lines IH]; intros st; cbn [fold_left].
  - split; exists []; symmetry; apply app_nil_r.
  - eapply extendsRules_trans; [apply parseLine_extends | apply IH].
Qed.

(** X2. Text added after a robots text, on new lines, never removes or
    reorders what the text gave: the two lists of the longer text start
    with the entries of the shorter one, in the same order. *)
Theorem parseRobots_only_appends (toLowerCase : jsstring -> jsstring)
    (content added : jsstring) :
  extendsRules (parseRobots toLowerCase content)
    (parseRobots toLowerCase (content ++ 10 :: added)).
Proof.
  unfold parseRobots, parseLines.
  destruct (splitLines_app_bounded (List.length content) content added
              (le_n _)) as (lines & -> & Hsame).
  rewrite fold_left_app.
  rewrite (parseLines_sameLine toLowerCase lines (splitLines content) Hsame).
  apply parseLines_extends.
Qed.

(** X3. When the disallow list holds the pattern [/], a path is
    allowed exactly when some allow entry matches it: everything else
    is refused. *)
Theorem disallow_root_blocks_all_but_allowed (rules : RobotsRules)
    (path : jsstring) :
  In (js "/") (disallow rules) ->
  (isPathAllowed path (Some rules) = true <->
   exists entry, In entry (allow rules)
                 /\ matchesRule (normalizedPath path) entry = true).
Proof.
  intros Hroot. unfold isPathAllowed. rewrite <- firstMatch_exists.
  destruct (firstMatch (normalizedPath path) (allow rules));
    [split; reflexivity|].
  assert (Hd : firstMatch (normalizedPath path) (disallow rules) = true).
  { apply firstMatch_exists. exists (js "/"). split; [exact Hroot|].
    reflexivity. }
  rewrite Hd. split; discriminate.
Qed.

Lemma disallow_root_blocks_all_but_allowed_witness :
  isPathAllowed (js "/shop/cart")
    (Some (mkRobotsRules [js "/tmp"; js "/"] [js "/shop"] None)) = true.
Proof.
  apply (disallow_root_blocks_all_but_allowed
           (mkRobotsRules [js "/tmp"; js "/"] [js "/shop"] None)
           (js "/shop/cart")).
  - right; left; reflexivity.
  - exists (js "/shop"). split; [left; reflexivity | reflexivity].
Defined.

Lemma startsWith_app (s prefix more : jsstring) :
  startsWith s prefix = true -> startsWith (s ++ more) prefix = true.
Proof.
  rewrite !startsWith_prefix. intros [rest ->]. exists (rest ++ more).
  symmetry. apply app_assoc.
Qed.

(** A pattern without a final [$] that matches a path matches every
    path that continues it. *)
Lemma matchesRule_extends (path more pattern : jsstring) :
  endsWith pattern (js "$") = false ->
  matchesRule (normalizedPath path) pattern = true ->
  matchesRule (normalizedPath (path ++ more)) pattern = true.
Proof.
  intros Hend. unfold matchesRule.
  destruct pattern as [|p0 pattern]; [reflexivity|].
  destruct (eqb (p0 :: pattern) (js "/")) eqn:Eslash; [reflexivity|].
  rewrite Hend. destruct path as [|c path].
  - cbn [normalizedPath]. change (js "/") with [47] in *.
    cbn [startsWith]. intros H. apply andb_true_iff in H.
    destruct H as [H0 H1]. apply N.eqb_eq in H0. subst p0.
    destruct pattern; [|discriminate]. discriminate.
  - cbn [app normalizedPath]. apply (startsWith_app (c :: path)).
Qed.

(** X4. With no allow entries and no pattern ending in [$], refusing
    a path refuses every path that continues it. *)
Theorem refusal_covers_longer_paths (rules : RobotsRules)
    (path more : jsstring) :
  allow rules = [] ->
  (forall pattern, In pattern (disallow rules) ->
                   endsWith pattern (js "$") = false) ->
  isPathAllowed path (Some rules) = false ->
  isPathAllowed (path ++ more) (Some rules) = false.
Proof.
  intros Hallow Hpat. unfold isPathAllowed. rewrite Hallow. cbn [firstMatch].
  destruct (firstMatch (normalizedPath path) (disallow rules)) eqn:E;
    [|discriminate].
  intros _. apply firstMatch_exists in E. destruct E as (pattern & Hin & Hm).
  assert (E' : firstMatch (normalizedPath (path ++ more)) (disallow rules)
               = true).
  { apply firstMatch_exists. exists pattern. split; [exact Hin|].
    apply matchesRule_extends; [apply Hpat, Hin | exact Hm]. }
  rewrite E'. reflexivity.
Qed.

Lemma refusal_covers_longer_paths_witness :
  isPathAllowed (js "/admin" ++ js "/users/7")
    (Some (mkRobotsRules [js "/admin"] [] None)) = false.
Proof.
  apply (refusal_covers_longer_paths (mkRobotsRules [js "/admin"] [] None)).
  - reflexivity.
  - intros pattern [<- | []]. reflexivity.
  - reflexivity.
Defined.

(** X5. A robots text with no [user-agent] line for all agents (the
    star) or for the agent refuses no path. *)
Theorem foreign_robots_refuse_nothing (toLowerCase : jsstring -> jsstring)
    (content path : jsstring) :
  existsb (opensApplicableBlock toLowerCase) (splitLines content) = false ->
  isPathAllowed path (Some (parseRobots toLowerCase content)) = true.
Proof.
  intros H. unfold parseRobots, parseLines.
  rewrite (parseLines_outside_block toLowerCase emptyRules _ H). reflexivity.
Qed.

Lemma foreign_robots_refuse_nothing_witness :
  isPathAllowed (js "/private/x")
    (Some (parseRobots lowerLatin1 Samples.robotsOtherBot)) = true.
Proof.
  apply (foreign_robots_refuse_nothing lowerLatin1 Samples.robotsOtherBot).
  vm_compute. reflexivity.
Defined.

(** ** PageExtractor: further properties *)

(** X6. For ceilings that are not negative, each truncation flag is
    set exactly when the untruncated string is more than three code
    units over its ceiling: the marker that [truncate] appends counts in
    the comparison. *)
Theorem truncation_flags_count_marker (html : option jsstring)
    (text : jsstring) (maxHtmlChars maxTextChars : Z) :
  (0 <= maxHtmlChars)%Z -> (0 <= maxTextChars)%Z ->
  let page := summarizeBody html text maxHtmlChars maxTextChars in
  (isTextTruncated page = true <->
   (maxTextChars + 3 < len (trim (collapseWhiteSpace text)))%Z)
  /\ (isHtmlTruncated page = true <->
      (maxHtmlChars + 3
       < len (match html with Some h => trim h | None => [] end))%Z).
Proof.
  intros Hh Ht page. unfold page, summarizeBody.
  cbn [isTextTruncated isHtmlTruncated].
  rewrite !truncation_flag by assumption. rewrite !Z.ltb_lt. tauto.
Qed.

Lemma truncation_flags_count_marker_witness :
  isTextTruncated (summarizeBody None (js "one two three") 5 5) = true
  /\ isTextTruncated (summarizeBody None (js "one two") 5 5) = false.
Proof.
  destruct (truncation_flags_count_marker None (js "one two three") 5 5)
    as [[_ H1] _]; [lia | lia |].
  destruct (truncation_flags_count_marker None (js "one two") 5 5)
    as [[H2 _] _]; [lia | lia |].
  split.
  - apply H1. vm_compute. reflexivity.
  - destruct (isTextTruncated (summarizeBody None (js "one two") 5 5));
      [|reflexivity].
    specialize (H2 eq_refl). vm_compute in H2. discriminate.
Defined.

(** X7. For a ceiling that is not negative, [truncate] returns at most
    three code units more than the ceiling, leaves the text up to the
    ceiling as it was, and changes nothing when applied again. *)
Theorem truncate_bounded_and_stable (text : jsstring) (maxLength : Z) :
  (0 <= maxLength)%Z ->
  (len (truncate text maxLength) <= maxLength + 3)%Z
  /\ firstn (Z.to_nat maxLength) (truncate text maxLength)
     = firstn (Z.to_nat maxLength) text
  /\ truncate (truncate text maxLength) maxLength = truncate text maxLength.
Proof.
  intros H0. destruct (Z_le_gt_dec (len text) maxLength) as [Hle | Hgt].
  - rewrite !truncate_within by (rewrite ?truncate_within; assumption).
    repeat split. lia.
  - destruct (truncate_beyond text maxLength) as [E L]; [lia|].
    assert (Hn : List.length (firstn (Z.to_nat maxLength) text)
                 = Z.to_nat maxLength).
    { apply firstn_length_le. unfold len in Hgt. lia. }
    split; [lia | split].
    + rewrite E, firstn_app, Hn, Nat.sub_diag, firstn_firstn, Nat.min_id.
      cbn [firstn]. apply app_nil_r.
    + destruct (truncate_beyond (truncate text maxLength) maxLength)
        as [E2 _]; [lia|].
      rewrite E2. rewrite E at 1.
      rewrite firstn_app, Hn, Nat.sub_diag, firstn_firstn, Nat.min_id.
      cbn [firstn]. rewrite app_nil_r. symmetry. exact E.
Qed.

Lemma truncate_bounded_and_stable_witness :
  (len (truncate (js "abcdefgh") 4) <= 4 + 3)%Z
  /\ truncate (truncate (js "abcdefgh") 4) 4 = js "abcd...".
Proof.
  destruct (truncate_bounded_and_stable (js "abcdefgh") 4) as (H1 & _ & H3);
    [lia|].
  split; [exact H1 | rewrite H3; reflexivity].
Defined.

Lemma wordsFrom_blank (afterSpace : bool) (s : jsstring) :
  forallb isWhiteSpace s = true -> wordsFrom afterSpace s = 0%nat.
Proof.
  revert afterSpace; induction s as [|c s IH]; intros p; cbn [forallb wordsFrom];
    [reflexivity|].
  intros H. apply andb_true_iff in H. destruct H as [-> H]. apply IH, H.
Qed.

Lemma wordsFrom_after_blank (blank s : jsstring) :
  forallb isWhiteSpace blank = true ->
  wordsFrom true (blank ++ s) = wordsFrom true s.
Proof.
  induction blank as [|c blank IH]; cbn [forallb app wordsFrom];
    [reflexivity|].
  intros H. apply andb_true_iff in H. destruct H as [-> H]. apply IH, H.
Qed.

Lemma wordsFrom_before_blank (afterSpace : bool) (s blank : jsstring) :
  forallb isWhiteSpace blank = true ->
  wordsFrom afterSpace (s ++ blank) = wordsFrom afterSpace s.
Proof.
  intros H. revert afterSpace; induction s as [|c s IH]; intros p;
    cbn [app wordsFrom].
  - apply wordsFrom_blank, H.
  - destruct (isWhiteSpace c); rewrite IH; reflexivity.
Qed.

Lemma wordsFrom_collapse (afterSpace : bool) (s : jsstring) :
  wordsFrom afterSpace (collapseWhiteSpace s) = wordsFrom afterSpace s.
Proof.
  revert afterSpace; induction s as [|c s IH]; intros p; [reflexivity|].
  cbn [collapseWhiteSpace wordsFrom]. destruct (isWhiteSpace c) eqn:Ec.
  - destruct s as [|d s']; [reflexivity|].
    destruct (isWhiteSpace d) eqn:Ed.
    + rewrite IH. cbn [wordsFrom]. rewrite Ed. reflexivity.
    + cbn [wordsFrom]. change (isWhiteSpace 32) with true. cbv iota.
      apply IH.
  - cbn [wordsFrom]. rewrite Ec, IH. reflexivity.
Qed.

Lemma trimStart_blank_prefix (s : jsstring) :
  exists blank, s = blank ++ trimStart s /\ forallb isWhiteSpace blank = true.
Proof.
  induction s as [|c s (blank & IH & Hb)]; [exists []; split; reflexivity|].
  cbn [trimStart]. destruct (isWhiteSpace c) eqn:E.
  - exists (c :: blank). cbn [app forallb]. rewrite <- IH, E, Hb.
    split; reflexivity.
  - exists []. split; reflexivity.
Qed.

Lemma forallb_rev (f : code_unit -> bool) (s : jsstring) :
  forallb f s = true -> forallb f (rev s) = true.
Proof.
  rewrite !forallb_forall. intros H x Hx. apply H, in_rev, Hx.
Qed.

(** A text is its trimmed text between two runs of white space. *)
Lemma trim_between_blanks (s : jsstring) :
  exists before after,
    s = before ++ trim s ++ after
    /\ forallb isWhiteSpace before = true
    /\ forallb isWhiteSpace after = true.
Proof.
  destruct (trimStart_blank_prefix s) as (b1 & E1 & H1).
  destruct (trimStart_blank_prefix (rev (trimStart s))) as (b2 & E2 & H2).
  exists b1, (rev b2). repeat split; [|exact H1 | apply forallb_rev, H2].
  unfold trim, trimEnd. rewrite <- rev_app_distr, <- E2, rev_involutive.
  exact E1.
Qed.

Lemma countWords_trim (s : jsstring) : countWords (trim s) = countWords s.
Proof.
  destruct (trim_between_blanks s) as (b1 & b2 & E & H1 & H2).
  unfold countWords. rewrite E at 2.
  rewrite (wordsFrom_after_blank b1 _ H1), (wordsFrom_before_blank _ _ _ H2).
  reflexivity.
Qed.

Lemma endsInWord_last (s : jsstring) (d : code_unit) :
  endsInWord (s ++ [d]) = negb (isWhiteSpace d).
Proof.
  induction s as [|c s IH]; [reflexivity|].
  cbn [app endsInWord]. destruct (s ++ [d]) eqn:E; [|exact IH].
  destruct s; discriminate.
Qed.

(** The runs of white space and the words of a text, counted against
    each other. *)
Lemma runs_and_words (s : jsstring) :
  (whiteSpaceRuns s + (if endsInWord s then 1 else 0)
   = wordsFrom true s + (if startsBlank s then 1 else 0))%nat.
Proof.
  induction s as [|c s IH]; [reflexivity|].
  cbn [whiteSpaceRuns wordsFrom endsInWord startsBlank].
  destruct (isWhiteSpace c) eqn:Ec.
  - destruct s as [|d s']; [reflexivity|].
    cbn [startsBlank] in IH. destruct (isWhiteSpace d); lia.
  - destruct s as [|d s']; [reflexivity|].
    cbn [startsBlank wordsFrom] in IH |- *. cbn [negb].
    destruct (isWhiteSpace d); lia.
Qed.

(** X8. The word count of a page is the number of words of the body
    text, that is of its maximal runs of code units that are not white
    space, whatever the ceilings and however much of the text is kept. *)
Theorem wordCount_counts_words (html : option jsstring) (text : jsstring)
    (maxHtmlChars maxTextChars : Z) :
  wordCount (summarizeBody html text maxHtmlChars maxTextChars)
  = countWords text.
Proof.
  unfold summarizeBody. cbn [wordCount].
  replace (countWords text)
    with (countWords (trim (collapseWhiteSpace text)))
    by (rewrite countWords_trim; apply wordsFrom_collapse).
  destruct (trim_shape (collapseWhiteSpace text))
    as [-> | (c & middle & d & Hc & Hd & Hrev & tail & Ht)]; [reflexivity|].
  pose proof (runs_and_words (trim (collapseWhiteSpace text))) as H.
  assert (He : endsInWord (trim (collapseWhiteSpace text)) = true).
  { rewrite <- (rev_involutive (trim _)), Hrev. cbn [rev].
    rewrite endsInWord_last, Hd. reflexivity. }
  rewrite He in H. rewrite Ht in *. cbn [startsBlank] in H. rewrite Hc in H.
  unfold countWords. lia.
Qed.

(** ** CrawlOrchestrator *)

Ltac crawl_cases target robots options world :=
  unfold crawlSite;
  destruct (normalizeUrl target) as [[|c0 normalized]|] eqn:Hnorm;
  [ | destruct (mergedRespectRobots options) eqn:Hrespect;
      [ destruct robots as [info|];
        [ destruct (isPathAllowed (pathname target) (Some (rules info)))
            eqn:Hallowed | ]
      | ];
      cbn [andb negb];
      (destruct world as [e | code contentType [e | doc]];
       [ | destruct (responseOk code) eqn:Hok;
           [destruct (includes match contentType with
                               | Some t => t
                               | None => []
                               end (js "text/html")) eqn:Hhtml | ]
         | destruct (responseOk code) eqn:Hok;
           [destruct (includes match contentType with
                               | Some t => t
                               | None => []
                               end (js "text/html")) eqn:Hhtml | ] ]);
      cbn [negb]
  | ].



Lemma normalizeUrl_some (target : Url) (normalizedUrl : jsstring) :
  normalizeUrl target = Some normalizedUrl ->
  (protocol target = js "http:" \/ protocol target = js "https:")
  /\ normalizedUrl = hrefWithoutHash target.
Proof.
  unfold normalizeUrl.
  destruct (eqb (protocol target) (js "http:")) eqn:E1.
  - apply eqb_eq in E1. cbn [negb andb]. intros H; inversion H; auto.
  - destruct (eqb (protocol target) (js "https:")) eqn:E2.
    + apply eqb_eq in E2. cbn [negb andb]. intros H; inversion H; auto.
    + discriminate.
Qed.

(** X10. [crawlSite] returns a page only for an [http:] or [https:]
    target whose path the rule set allows when robots are respected,
    and only when the response has a status from 200 to 299, a
    [content-type] that contains [text/html] and a body that loads;
    the page is then the only one and the log is the one entry of the
    fetch, with that status. *)
Theorem page_only_when_permitted (toLowerCase : jsstring -> jsstring)
    (target : Url) (robots : option RobotsInfo) (options : CrawlOptions)
    (world : FetchOutcome) (page : PageSummary) :
  In page (pages (crawlSite toLowerCase target robots options world)) ->
  (protocol target = js "http:" \/ protocol target = js "https:")
  /\ (forall info, respectRobots options <> Some false ->
        robots = Some info ->
        isPathAllowed (pathname target) (Some (rules info)) = true)
  /\ exists code contentType doc,
       world = FetchResponds code (Some contentType) (BodyLoaded doc)
       /\ (200 <= code <= 299)%Z
       /\ includes contentType (js "text/html") = true
       /\ crawlSite toLowerCase target robots options world
          = mkCrawlResult
              [extractPage toLowerCase (hrefWithoutHash target) doc
                 (mergedMaxHtmlChars options) (mergedMaxTextChars options)]
              [mkCrawlLogEntry (hrefWithoutHash target) (Some code)
                 (Some fetchedReason)]
       /\ page = extractPage toLowerCase (hrefWithoutHash target) doc
                   (mergedMaxHtmlChars options) (mergedMaxTextChars options).
Proof.
  crawl_cases target robots options world; cbn [pages In];
    try (intros []; fail); intros [<- | []];
    destruct (normalizeUrl_some target _ Hnorm) as [Hproto Hhref];
    (split; [exact Hproto|]);
    (split;
     [ intros info' Hr Hsome;
       try (inversion Hsome; subst; assumption);
       try discriminate;
       exfalso; apply Hr; unfold mergedRespectRobots in Hrespect;
       destruct (respectRobots options) as [[|]|]; congruence
     | ]);
    (destruct contentType as [contentType|]; [|discriminate Hhtml]);
    exists code, contentType, doc; rewrite <- Hhref;
    unfold responseOk in Hok; apply andb_true_iff in Hok;
    rewrite !Z.leb_le in Hok; repeat split; try tauto.
Qed.

Lemma page_only_when_permitted_witness :
  isPathAllowed (js "/public")
    (Some (parseRobots lowerLatin1 Samples.robotsSpecExample)) = true.
Proof.
  refine (proj1 (proj2
    (page_only_when_permitted lowerLatin1
       (mkUrl (js "https:") (js "/public") (js "https://example.org/public"))
       (Some (mkRobotsInfo Samples.robotsSpecExample
                (parseRobots lowerLatin1 Samples.robotsSpecExample)))
       routeOptions
       (FetchResponds 200 (Some (js "text/html; charset=utf-8"))
          (BodyLoaded (mkDocument (js " Home ") (Some (js "<p>hi</p>"))
                         (js "hi") [] 0 0)))
       _ _)) _ _ eq_refl).
  - left. reflexivity.
  - discriminate.
Defined.

(** X11. The log of [crawlSite] has at most two entries and its result
    at most one page, every entry and every page carries the
    normalized URL, and the log is empty exactly when the target is
    not an [http:] or [https:] URL (or normalizes to the empty
    string). *)
Theorem crawl_log_shape (toLowerCase : jsstring -> jsstring)
    (target : Url) (robots : option RobotsInfo) (options : CrawlOptions)
    (world : FetchOutcome) :
  let result := crawlSite toLowerCase target robots options world in
  (List.length (log result) <= 2)%nat
  /\ (List.length (pages result) <= 1)%nat
  /\ (forall entry, In entry (log result) ->
        entryUrl entry = hrefWithoutHash target)
  /\ (forall page, In page (pages result) ->
        url page = hrefWithoutHash target)
  /\ (log result = [] <->
      normalizeUrl target = None \/ hrefWithoutHash target = []).
Proof.
  cbv zeta.
  assert (Hnone : normalizeUrl target = None ->
                  crawlSite toLowerCase target robots options world
                  = mkCrawlResult [] []).
  { intros H. unfold crawlSite. rewrite H. reflexivity. }
  crawl_cases target robots options world; cbn [log pages List.length In];
    try (destruct (normalizeUrl_some target _ Hnorm) as [_ Hhref]);
    (split; [lia|]); (split; [lia|]);
    (split; [intros entry Hin; try contradiction;
             repeat (destruct Hin as [<- | Hin]; [cbn [entryUrl]; congruence|]);
             contradiction|]);
    (split; [intros page Hin; try contradiction;
             repeat (destruct Hin as [<- | Hin]; [cbn [url extractPage]; congruence|]);
             contradiction|]);
    split; try (intros _; right; congruence); try (intros _; left; reflexivity);
    try discriminate; try reflexivity;
    intros [H | H]; congruence.
Qed.

Lemma crawl_log_shape_witness :
  log (crawlSite lowerLatin1
         (mkUrl (js "ftp:") (js "/pub") (js "ftp://example.org/pub"))
         None routeOptions (FetchThrows OtherValue)) = [].
Proof.
  apply (proj2 (proj2 (proj2 (proj2
    (crawl_log_shape lowerLatin1
       (mkUrl (js "ftp:") (js "/pub") (js "ftp://example.org/pub"))
       None routeOptions (FetchThrows OtherValue)))))).
  left. reflexivity.
Defined.

Lemma extractPage_login_needs_form (toLowerCase : jsstring -> jsstring)
    (normalizedUrl : jsstring) (doc : Document) (maxHtml maxText : Z) :
  containsLogin (extractPage toLowerCase normalizedUrl doc maxHtml maxText)
  = true ->
  hasForms (extractPage toLowerCase normalizedUrl doc maxHtml maxText) = true.
Proof.
  unfold extractPage. cbn [containsLogin hasForms]. intros H.
  apply andb_true_iff in H. tauto.
Qed.

(** X12. A page that [crawlSite] returns is flagged as containing a
    login only if it is flagged as having forms; so, in the summary
    that the route draws from the crawl, the pages with logins are at
    most the pages with forms, which are at most the pages, which are
    at most one. *)
Theorem summary_counts_ordered (toLowerCase : jsstring -> jsstring)
    (target : Url) (robots : option RobotsInfo) (options : CrawlOptions)
    (world : FetchOutcome) :
  let result := crawlSite toLowerCase target robots options world in
  let summary := crawlSummaryOf robots result in
  (forall page, In page (pages result) ->
     containsLogin page = true -> hasForms page = true)
  /\ (pagesWithLogins summary <= pagesWithForms summary)%nat
  /\ (pagesWithForms summary <= totalPages summary)%nat
  /\ (totalPages summary <= 1)%nat.
Proof.
  cbv zeta. unfold crawlSummaryOf.
  cbn [pagesWithLogins pagesWithForms totalPages].
  crawl_cases target robots options world; cbn [pages filter List.length In];
    try (repeat split; try lia; intros page []; fail).
  all: pose proof (extractPage_login_needs_form toLowerCase (c0 :: normalized)
                     doc (mergedMaxHtmlChars options)
                     (mergedMaxTextChars options)) as Hlogin.
  all: split; [intros page [<- | []]; exact Hlogin|].
  all: destruct (containsLogin _); [rewrite (Hlogin eq_refl)|];
       destruct (hasForms _); cbn [List.length]; repeat split; lia.
Qed.

Lemma summary_counts_ordered_witness :
  hasForms
    (extractPage lowerLatin1 (js "https://example.org/")
       (mkDocument (js "Sign in") (Some (js "<form id='login'></form>"))
          (js "Please log in") [Some (js "login")] 0 1)
       DEFAULT_maxHtmlChars DEFAULT_maxTextChars) = true.
Proof.
  apply (proj1
    (summary_counts_ordered lowerLatin1
       (mkUrl (js "https:") (js "/") (js "https://example.org/"))
       None routeOptions
       (FetchResponds 200 (Some (js "text/html"))
          (BodyLoaded
             (mkDocument (js "Sign in") (Some (js "<form id='login'></form>"))
                (js "Please log in") [Some (js "login")] 0 1)))));
    [left|]; reflexivity.
Defined.

(** X13. In the capture step of the route, a page is returned only if
    the robots file, when it was served with a status from 200 to 299
    and read, allows the path under [parseRobots] and
    [isPathAllowed]. *)
Theorem capture_respects_served_robots (toLowerCase : jsstring -> jsstring)
    (target : Url) (code : Z) (robotsText : jsstring)
    (world : FetchOutcome) (page : PageSummary) :
  responseOk code = true ->
  In page (pages (snd (capture toLowerCase target
                         (RobotsResponds code (Some robotsText)) world))) ->
  isPathAllowed (pathname target)
    (Some (parseRobots toLowerCase robotsText)) = true.
Proof.
  intros Hok. unfold capture, fetchRobots. cbn [snd]. rewrite Hok.
  assert (H404 : (code =? 404)%Z = false).
  { unfold responseOk in Hok. apply andb_true_iff in Hok.
    rewrite !Z.leb_le in Hok. apply Z.eqb_neq. lia. }
  rewrite H404. cbn [negb orb]. unfold crawlSite.
  destruct (normalizeUrl target) as [[|c0 normalized]|];
    try (intros []; fail).
  cbn [mergedRespectRobots routeOptions respectRobots rules andb].
  destruct (isPathAllowed (pathname target)
              (Some (parseRobots toLowerCase robotsText)));
    [reflexivity|].
  cbn [negb pages In]. intros [].
Qed.

Lemma capture_respects_served_robots_witness :
  isPathAllowed (js "/public")
    (Some (parseRobots lowerLatin1 Samples.robotsSpecExample)) = true.
Proof.
  apply (capture_respects_served_robots lowerLatin1
           (mkUrl (js "https:") (js "/public") (js "https://example.org/public"))
           200 Samples.robotsSpecExample
           (FetchResponds 200 (Some (js "text/html"))
              (BodyLoaded (mkDocument [] None (js "hello") [] 0 0)))
           (extractPage lowerLatin1 (js "https://example.org/public")
              (mkDocument [] None (js "hello") [] 0 0)
              DEFAULT_maxHtmlChars DEFAULT_maxTextChars)).
  - reflexivity.
  - left. reflexivity.
Defined.

(** ** PolicyModel: further properties *)

(** X14. In the rules that [buildQuickPolicy] emits, a rule carries
    modifiers only when it is allowed: a rate limit only on
    [follow_link] and only for a rate limit other than [open], a
    [human_in_the_loop] only on [set_input_value] and [submit_form] and
    only when a human is required for forms. *)
Theorem modifiers_only_on_allowed_rules (state : QuickBuilderState)
    (r : ResourceRule) (m : value) :
  In r (quickRules state) ->
  modifiers r = Some m ->
  allowed r = true
  /\ ((verb r = js "follow_link" /\ buildRateLimit (rateLimit state) = Some m)
      \/ ((verb r = js "set_input_value" \/ verb r = js "submit_form")
          /\ requireHumanForForms state = true /\ m = humanInTheLoop)).
Proof.
  destruct state as [site rc rm nav forms human login rate dl].
  unfold quickRules.
  cbn [allowReadContent allowReadMetadata allowNavigation allowForms
       requireHumanForForms rateLimit allowDownloads In].
  intros Hin Hm.
  repeat (destruct Hin as [<- | Hin];
          [cbn [modifiers allowed verb] in *; try discriminate Hm|]);
    try contradiction.
  - destruct nav; [|discriminate]. split; [reflexivity|]. left.
    split; [reflexivity | exact Hm].
  - destruct forms, human; try discriminate. inversion Hm.
    split; [reflexivity|]. right. repeat split. left; reflexivity.
  - destruct forms, human; try discriminate. inversion Hm.
    split; [reflexivity|]. right. repeat split. right; reflexivity.
Qed.

Lemma modifiers_only_on_allowed_rules_witness :
  allowed (mkResourceRule (js "follow_link") (js "*") true
             (Some (rateLimitValue 5 10))) = true.
Proof.
  apply (modifiers_only_on_allowed_rules Samples.strictState
           (mkResourceRule (js "follow_link") (js "*") true
              (Some (rateLimitValue 5 10)))
           (rateLimitValue 5 10)).
  - do 2 right. left. reflexivity.
  - reflexivity.
Defined.

(** X15. Whatever the configuration, [buildQuickPolicy] emits eight
    rules, one for each of eight different verbs: no two of its rules
    are about the same verb. *)
Theorem one_rule_per_verb (state : QuickBuilderState) :
  List.length (quickRules state) = 8%nat
  /\ NoDup (map verb (quickRules state)).
Proof.
  split; [reflexivity|].
  unfold quickRules. cbn [map verb].
  repeat (constructor;
          [cbn [In]; intros H;
           repeat (destruct H as [H | H];
                   [vm_compute in H; discriminate H|]);
           exact H|]).
  constructor.
Qed.

(** X16. The metadata of the document that [buildQuickPolicy] writes
    comes back from [parsePolicy]: the schema version [1.0.0], the time
    stamp given, and the trimmed site name as author exactly when it is
    not empty. *)
Theorem built_metadata_survives (now : jsstring) (state : QuickBuilderState) :
  exists props,
    metadata (parsePolicy (buildQuickPolicy now state)) = Some (JObj props)
    /\ lookup (js "schema_version") props = Some (JStr (js "1.0.0"))
    /\ lookup (js "last_updated") props = Some (JStr now)
    /\ lookup (js "author") props
       = match trim (siteName state) with
         | [] => None
         | author => Some (JStr author)
         end.
Proof.
  rewrite parsePolicy_buildQuickPolicy. cbn [metadata]. unfold quickMetadata.
  eexists. split; [reflexivity|].
  destruct (trim (siteName state)); repeat split.
Qed.

(** X17. [parsePolicy] reports an error exactly when the text is not
    blank and either does not decode or decodes to [null]; a result
    with an error has no metadata, no rule and no guideline. *)
Theorem parsePolicy_error_is_bare (raw : jsstring) :
  (error (parsePolicy raw) <> None <->
   trim raw <> [] /\ forall data, JSON_parse raw = inl data -> data = JNull)
  /\ (error (parsePolicy raw) <> None ->
      metadata (parsePolicy raw) = None
      /\ resourceRules (parsePolicy raw) = []
      /\ actionGuidelines (parsePolicy raw) = []).
Proof.
  unfold parsePolicy. destruct (trim raw) as [|c t] eqn:Et.
  - cbn [error]. split; [split|]; [congruence | intros [H _]; congruence
                                   | congruence].
  - destruct (JSON_parse raw) as [data | message].
    + destruct data; cbn [error metadata resourceRules actionGuidelines];
        (split; [split|]);
        try (intros _; split; [discriminate | intros d H; inversion H; reflexivity]);
        try (intros H; exfalso; apply H; reflexivity);
        try (intros [_ H]; specialize (H _ eq_refl); discriminate H);
        try (intros _; discriminate);
        try (intros _; repeat split).
    + cbn [error metadata resourceRules actionGuidelines].
      split; [split|].
      * intros _. split; [discriminate | intros d H; discriminate H].
      * intros _. discriminate.
      * intros _. repeat split.
Qed.

Lemma parsePolicy_error_is_bare_witness :
  resourceRules (parsePolicy (js "{ not json")) = [].
Proof.
  apply (proj2 (parsePolicy_error_is_bare (js "{ not json"))).
  discriminate.
Defined.

(** X18. A text that decodes to a value that is neither an object nor
    [null] (a number, a string, a boolean, an array) is taken as an
    empty policy: no error, no metadata, no rule, no guideline. *)
Theorem non_object_document_is_empty (raw : jsstring) (data : value) :
  JSON_parse raw = inl data ->
  isPlainObject data = false ->
  data <> JNull ->
  parsePolicy raw = mkParsedPolicy None None [] [].
Proof.
  intros H Hobj Hnull. rewrite (parsePolicy_decoded raw data H).
  destruct data; try reflexivity; [congruence | discriminate].
Qed.

Lemma non_object_document_is_empty_witness :
  parsePolicy (jsq "[{'verb':'read_content','selector':'*','allowed':true}]")
  = mkParsedPolicy None None [] [].
Proof.
  apply (non_object_document_is_empty _
           (JArr [JObj [(js "verb", JStr (js "read_content"));
                        (js "selector", JStr (js "*"));
                        (js "allowed", JBool true)]])).
  - reflexivity.
  - reflexivity.
  - discriminate.
Defined.

(** X19. When forms are not allowed, requiring a human for forms
    changes nothing in the document; when navigation is not allowed,
    the rate limit changes nothing in the rules. *)
Theorem inert_options (now site : jsstring)
    (rc rm nav forms human1 human2 login dl : bool) (rate1 rate2 : RateLimit) :
  buildQuickPolicy now
    (mkQuickBuilderState site rc rm nav false human1 login rate1 dl)
  = buildQuickPolicy now
      (mkQuickBuilderState site rc rm nav false human2 login rate1 dl)
  /\ quickRules (mkQuickBuilderState site rc rm false forms human1 login rate1 dl)
     = quickRules
         (mkQuickBuilderState site rc rm false forms human1 login rate2 dl).
Proof.
  split; [|reflexivity].
  unfold buildQuickPolicy, policyValue, quickMetadata, quickRules,
    quickGuidelines, guidelineSlots.
  cbn [siteName allowReadContent allowReadMetadata allowNavigation allowForms
       requireHumanForForms blockLogin rateLimit allowDownloads andb].
  reflexivity.
Qed.

(** X20. [buildQuickPolicy] emits at most three guidelines, each with
    the directive [MUST NOT] or [SHOULD] and without exceptions, and a
    [MUST NOT] guideline is among them exactly when logins are
    blocked. *)
Theorem guidelines_shape (state : QuickBuilderState) :
  (List.length (quickGuidelines state) <= 3)%nat
  /\ (forall g, In g (quickGuidelines state) ->
        (directive g = js "MUST NOT" \/ directive g = js "SHOULD")
        /\ exceptions g = None)
  /\ existsb (fun g => eqb (directive g) (js "MUST NOT"))
       (quickGuidelines state)
     = blockLogin state.
Proof.
  destruct state as [site rc rm nav forms human login rate dl].
  unfold quickGuidelines, guidelineSlots.
  cbn [blockLogin allowForms requireHumanForForms rateLimit].
  destruct login, forms, human, rate; cbn [dropNulls List.length];
    (split; [lia|]);
    (split; [|reflexivity]);
    intros g Hin; cbn [In] in Hin;
    repeat (destruct Hin as [<- | Hin];
            [cbn [directive exceptions];
             split; [(left; reflexivity) || (right; reflexivity)
                    | reflexivity]|]);
    contradiction.
Qed.

Lemma guidelines_shape_witness :
  Forall (fun g => exceptions g = None)
    (quickGuidelines Samples.strictState).
Proof.
  apply Forall_forall. intros g H.
  apply (proj1 (proj2 (guidelines_shape Samples.strictState)) g H).
Defined.

(** ** [parseJsonSafely] *)

Lemma fence_not_here (c : code_unit) (s : jsstring) :
  (c =? 96) = false -> startsWith (c :: s) fence = false.
Proof. intros H. unfold fence. cbn [startsWith]. rewrite H. reflexivity. Qed.

Lemma untilFence_cons (c : code_unit) (s : jsstring) :
  untilFence (c :: s)
  = if startsWith (c :: s) fence then Some ([], skipn 3 (c :: s))
    else match untilFence s with
         | Some (captured, after) => Some (c :: captured, after)
         | None => None
         end.
Proof. reflexivity. Qed.

Lemma untilFence_plain (y after : jsstring) :
  noBacktick y = true -> untilFence (y ++ fence ++ after) = Some (y, after).
Proof.
  induction y as [|c y IH]; [reflexivity|].
  cbn [noBacktick forallb]. intros H. apply andb_true_iff in H.
  destruct H as [Hc Hy]. apply negb_true_iff in Hc.
  cbn [app]. rewrite untilFence_cons, (fence_not_here c _ Hc), (IH Hy).
  reflexivity.
Qed.

Lemma findFence_cons (c : code_unit) (s : jsstring) :
  findFence (c :: s)
  = match fenceAt (c :: s) with
    | Some captured => Some captured
    | None => findFence s
    end.
Proof. reflexivity. Qed.

Lemma findFence_skips (before s : jsstring) :
  noBacktick before = true -> findFence (before ++ s) = findFence s.
Proof.
  induction before as [|c before IH]; [reflexivity|].
  cbn [noBacktick forallb]. intros H. apply andb_true_iff in H.
  destruct H as [Hc Hb]. apply negb_true_iff in Hc.
  cbn [app]. rewrite findFence_cons. unfold fenceAt.
  rewrite (fence_not_here c _ Hc). apply IH, Hb.
Qed.

Lemma noBacktick_app (s t : jsstring) :
  noBacktick (s ++ t) = noBacktick s && noBacktick t.
Proof. apply forallb_app. Qed.

Lemma noBacktick_trimStart (s : jsstring) :
  noBacktick s = true -> noBacktick (trimStart s) = true.
Proof.
  destruct (trimStart_suffix s) as [blank E]. intros H. rewrite E in H.
  rewrite noBacktick_app in H. apply andb_true_iff in H. tauto.
Qed.

(** The tag is looked for in the text before the closing fence. *)
Lemma skipJsonTag_before_fence (inner after : jsstring) :
  noBacktick inner = true ->
  skipJsonTag (inner ++ fence ++ after) = skipJsonTag inner ++ fence ++ after
  /\ noBacktick (skipJsonTag inner) = true.
Proof.
  intros H.
  destruct inner as [|j [|s1 [|o [|n rest]]]].
  1-4: split; [|exact H]; unfold fence; cbn [app skipJsonTag];
       try (destruct after);
       repeat match goal with
              | |- context [sameLetter ?a ?b] =>
                  is_var b; destruct (sameLetter a b)
              end; reflexivity.
  cbn [app skipJsonTag].
  destruct (sameLetter 106 j && sameLetter 115 s1 && sameLetter 111 o
            && sameLetter 110 n).
  - split; [reflexivity|]. cbn [noBacktick forallb] in H.
    repeat (apply andb_true_iff in H; destruct H as [_ H]). exact H.
  - split; [reflexivity | exact H].
Qed.

Lemma trim_trimStart (s : jsstring) : trim (trimStart s) = trim s.
Proof.
  unfold trim. f_equal. destruct (trimStart s) as [|c t] eqn:E; [reflexivity|].
  apply trimStart_fixed. apply (trimStart_head s c t E).
Qed.

(** The leftmost fenced block of a text whose part before the block
    and whose block have no backtick. *)
Lemma findFence_block (before inner after : jsstring) :
  noBacktick before = true -> noBacktick inner = true ->
  exists captured,
    findFence (before ++ fence ++ inner ++ fence ++ after) = Some captured
    /\ trim captured = trim (skipJsonTag inner).
Proof.
  intros Hb Hi. rewrite (findFence_skips before _ Hb).
  destruct (skipJsonTag_before_fence inner after Hi) as [Etag Htag].
  exists (trimStart (skipJsonTag inner)). split; [|apply trim_trimStart].
  change (fence ++ inner ++ fence ++ after)
    with (96 :: 96 :: 96 :: inner ++ fence ++ after).
  rewrite findFence_cons. unfold fenceAt.
  change (startsWith (96 :: 96 :: 96 :: inner ++ fence ++ after) fence)
    with true.
  cbv iota. cbn [skipn].
  rewrite Etag, trimStart_app.
  assert (E : match trimStart (skipJsonTag inner) with
              | [] => trimStart (fence ++ after)
              | t => t ++ fence ++ after
              end = trimStart (skipJsonTag inner) ++ fence ++ after).
  { destruct (trimStart (skipJsonTag inner)); reflexivity. }
  rewrite E, (untilFence_plain _ after (noBacktick_trimStart _ Htag)).
  reflexivity.
Qed.

Lemma trimStart_text (before : jsstring) (c : code_unit) (rest : jsstring) :
  isWhiteSpace c = false ->
  trimStart (before ++ c :: rest) = trimStart before ++ c :: rest.
Proof.
  intros H. rewrite trimStart_app, (trimStart_fixed c rest H).
  destruct (trimStart before); reflexivity.
Qed.

Lemma trimEnd_text (front : jsstring) (c : code_unit) (after : jsstring) :
  isWhiteSpace c = false ->
  trimEnd (front ++ c :: after) = front ++ c :: trimEnd after.
Proof.
  intros H. unfold trimEnd. rewrite rev_app_distr. cbn [rev].
  rewrite <- app_assoc. cbn [app].
  rewrite (trimStart_text (rev after) c (rev front) H).
  rewrite rev_app_distr. cbn [rev]. rewrite rev_involutive, <- app_assoc.
  reflexivity.
Qed.

(** White space around a text with a fenced block is trimmed outside
    the block only. *)
Lemma trim_around_block (before inner after : jsstring) :
  trim (before ++ fence ++ inner ++ fence ++ after)
  = trimStart before ++ fence ++ inner ++ fence ++ trimEnd after.
Proof.
  unfold trim.
  change (fence ++ inner ++ fence ++ after)
    with (96 :: [96; 96] ++ inner ++ fence ++ after).
  rewrite (trimStart_text before 96 _ eq_refl).
  assert (E1 : trimStart before ++ 96 :: [96; 96] ++ inner ++ fence ++ after
               = (trimStart before ++ fence ++ inner ++ [96; 96])
                 ++ 96 :: after).
  { unfold fence. repeat first [rewrite <- app_assoc | progress cbn [app]].
    reflexivity. }
  rewrite E1, (trimEnd_text _ 96 after eq_refl).
  unfold fence. repeat first [rewrite <- app_assoc | progress cbn [app]].
  reflexivity.
Qed.

(** X21. From a text that holds a block between two fences of three
    backticks, [parseJsonSafely] decodes the inside of the first block,
    after an optional tag [json] in any case and trimmed, whatever
    comes before and after the block, provided there is no backtick
    before the block or inside it; the result is [null] when the
    inside does not decode. *)
Theorem parseJsonSafely_reads_first_block
    (before inner after : jsstring) :
  noBacktick before = true ->
  noBacktick inner = true ->
  parseJsonSafely (before ++ fence ++ inner ++ fence ++ after)
  = parseOrNull (trim (skipJsonTag inner)).
Proof.
  intros Hb Hi. unfold parseJsonSafely.
  destruct (before ++ fence ++ inner ++ fence ++ after) eqn:E.
  { destruct before; discriminate. }
  rewrite <- E. clear E.
  rewrite trim_around_block.
  destruct (findFence_block (trimStart before) inner (trimEnd after)
              (noBacktick_trimStart _ Hb) Hi) as (captured & -> & ->).
  reflexivity.
Qed.

Lemma parseJsonSafely_reads_first_block_witness :
  parseJsonSafely
    (js "Here is the policy: " ++ fence ++ jsq "JSON {'resource_rules':[]} "
     ++ fence ++ js " Let me know.")
  = JObj [(js "resource_rules", JArr [])].
Proof.
  rewrite (parseJsonSafely_reads_first_block (js "Here is the policy: ")
             (jsq "JSON {'resource_rules':[]} ") (js " Let me know."));
    reflexivity.
Defined.

Lemma includes_tail (c : code_unit) (s t : jsstring) :
  includes (c :: s) t = false -> includes s t = false.
Proof.
  cbn [includes]. intros H. apply orb_false_iff in H. tauto.
Qed.

Lemma findFence_none (s : jsstring) :
  includes s fence = false -> findFence s = None.
Proof.
  induction s as [|c s IH]; intros H.
  - reflexivity.
  - rewrite findFence_cons. unfold fenceAt.
    assert (Hs : startsWith (c :: s) fence = false).
    { cbn [includes] in H. apply orb_false_iff in H. tauto. }
    rewrite Hs. apply IH, (includes_tail c), H.
Qed.

Lemma includes_after (blank s t : jsstring) :
  includes (blank ++ s) t = false -> includes s t = false.
Proof.
  induction blank as [|c blank IH]; [tauto|].
  cbn [app]. intros H. apply IH, (includes_tail c), H.
Qed.

Lemma includes_before (s more t : jsstring) :
  includes (s ++ more) t = false -> includes s t = false.
Proof.
  induction s as [|c s IH]; intros H.
  - destruct t as [|x t]; [destruct more; discriminate H | reflexivity].
  - cbn [app includes] in H |- *. apply orb_false_iff in H.
    destruct H as [H1 H2]. rewrite (IH H2), orb_false_r.
    destruct (startsWith (c :: s) t) eqn:E; [|reflexivity].
    rewrite <- H1. symmetry. apply (startsWith_app (c :: s) t more E).
Qed.

(** Without a fence the trimmed text is what [parseJsonSafely]
    decodes. *)
Lemma parseJsonSafely_plain (raw : jsstring) :
  includes raw fence = false ->
  parseJsonSafely raw = parseOrNull (trim raw).
Proof.
  intros H. unfold parseJsonSafely.
  destruct raw as [|c r] eqn:Eraw; [reflexivity|].
  rewrite <- Eraw in *.
  destruct (trim_between_blanks raw) as (b1 & b2 & Hsplit & _ & _).
  rewrite Hsplit in H. apply includes_after, includes_before in H.
  rewrite (findFence_none _ H). reflexivity.
Qed.

(** X22. On a text without three backticks in a row,
    [parseJsonSafely] decodes the trimmed text and returns [null] when
    it does not decode; on the empty text and on a blank one it
    returns [null]. *)
Theorem parseJsonSafely_without_fence (raw : jsstring) :
  includes raw fence = false ->
  parseJsonSafely raw = parseOrNull (trim raw)
  /\ (trim raw = [] -> parseJsonSafely raw = JNull).
Proof.
  intros H. pose proof (parseJsonSafely_plain raw H) as E.
  split; [exact E|].
  intros Hblank. rewrite E. unfold parseOrNull.
  rewrite (JSON_parse_blank (trim raw)); [reflexivity|].
  rewrite trim_idempotent. exact Hblank.
Qed.

Lemma parseJsonSafely_without_fence_witness :
  parseJsonSafely (jsq "  {'metadata':{'author':'me'}}  ")
  = JObj [(js "metadata", JObj [(js "author", JStr (js "me"))])].
Proof.
  rewrite (proj1 (parseJsonSafely_without_fence
                    (jsq "  {'metadata':{'author':'me'}}  ") eq_refl)).
  reflexivity.
Defined.

(** ** The model's answer read back *)





(** X24. For an answer without three backticks in a row, the route
    reports no error exactly when the trimmed answer decodes to a
    value that JavaScript takes as true: an answer that is valid JSON
    for [null], [false], [0] or the empty string is reported as
    unparsable, and any object or array is accepted. *)
Theorem answer_error_iff_falsy (raw : jsstring) :
  includes raw fence = false ->
  (Llm.error (llmResultOf raw) = None <->
   exists v, JSON_parse (trim raw) = inl v /\ truthy (Some v) = true)
  /\ (Llm.error (llmResultOf raw) = None ->
      JSON_parse (trim raw) = inl (Llm.policy (llmResultOf raw))).
Proof.
  intros H. unfold llmResultOf. cbn [Llm.error Llm.policy].
  rewrite (parseJsonSafely_plain raw H). unfold parseOrNull.
  destruct (JSON_parse (trim raw)) as [v | message].
  - split.
    + destruct (truthy (Some v)) eqn:E.
      * split; [intros _; exists v; split; [reflexivity | exact E]
               | reflexivity].
      * split; [discriminate|].
        intros (w & Ew & Hw). inversion Ew; subst. congruence.
    + reflexivity.
  - cbn [truthy]. split; [|discriminate].
    split; [discriminate|]. intros (w & Ew & _). discriminate.
Qed.

Lemma answer_error_iff_falsy_witness :
  Llm.error (llmResultOf (jsq " {'resource_rules': []} ")) = None.
Proof.
  apply (proj1 (answer_error_iff_falsy
                  (jsq " {'resource_rules': []} ") eq_refl)).
  exists (JObj [(js "resource_rules", JArr [])]). split; reflexivity.
Defined.
